(** * Flight Route Advisor: the flight-network graph engine

    A shallow embedding of [src/config.py], [src/app/models/graph.py] and
    [src/app/services/hub_analysis.py], and the properties of the engine
    proved over it.

    Conventions of the embedding.
    - Python floats are modelled as exact rationals ([Q]); [round(x, n)] is
      round-half-to-even at [n] decimal digits, returned in lowest terms.
    - A pandas data frame is the list of its rows, in row order.
    - A [networkx.DiGraph] is a pair of insertion-ordered association lists
      (nodes, and edges keyed by the ordered pair of endpoints).
    - A Python exception is a value of [exn]; code that can raise returns a
      [result].
    - [geopy]'s geodesic and [networkx]'s path searches are library code:
      the former is a section variable, the latter an interface ([NetworkX])
      that carries the part of the documented contract the proofs rely on. *)

From Stdlib Require Import List String Ascii Bool ZArith QArith Qround Qabs Lia Lqa.
From Stdlib Require Import Permutation Sorted.
Import ListNotations.

Local Open Scope string_scope.
Local Open Scope Z_scope.
Local Open Scope Q_scope.

(* ================================================================== *)
(** * Numbers *)

Definition Qlt_bool (a b : Q) : bool := negb (Qle_bool b a).

(** Round to the nearest integer, ties to the even one. *)
Definition round_half_even (q : Q) : Z :=
  let f := Qfloor q in
  match Qcompare (q - inject_Z f) (1 # 2) with
  | Lt => f
  | Gt => (f + 1)%Z
  | Eq => if Z.even f then f else (f + 1)%Z
  end.

Definition pow10 (ndigits : nat) : Z := (10 ^ Z.of_nat ndigits)%Z.

(** Python's [round(x, ndigits)]. *)
Definition py_round (x : Q) (ndigits : nat) : Q :=
  Qred (inject_Z (round_half_even (x * inject_Z (pow10 ndigits)))
        / inject_Z (pow10 ndigits)).

(** [len(l)] as a Python integer. *)
Definition len {A : Type} (l : list A) : Z := Z.of_nat (List.length l).

(* ================================================================== *)
(** * Exceptions *)

Inductive exn : Type :=
| NetworkXNoPath
| NodeNotFound
| KeyError
| AttributeError (attr : string).

Inductive result (A : Type) : Type :=
| Ok (a : A)
| Raise (e : exn).

Arguments Ok {A} a.
Arguments Raise {A} e.

Definition bind {A B : Type} (m : result A) (k : A -> result B) : result B :=
  match m with
  | Ok a => k a
  | Raise e => Raise e
  end.

Notation "x <- m ;; k" := (bind m (fun x => k))
  (at level 61, m at next level, right associativity).

(* ================================================================== *)
(** * Configuration ([src/config.py]) *)

Module Config.
(** Minutes. *)
Definition MIN_TRANSFER_TIME : Z := 60.
Definition DEFAULT_TRANSFER_TIME : Z := 90.
Definition INTERNATIONAL_TRANSFER_TIME : Z := 120.
Definition BASE_COST_PER_KM : Q := 1 # 10.
Definition TRANSFER_COST_MULTIPLIER : Q := 3 # 2.
Definition MAX_STOPS : Z := 3.
Definition TOP_K_ROUTES : Z := 5.
Definition TOP_HUBS_COUNT : Z := 20.
End Config.

(* ================================================================== *)
(** * Input records and the directed graph *)

(** A row of [airports_df] (the columns the engine reads). *)
Record Airport : Type := mkAirport {
  iata : string;
  name : string;
  city : string;
  country : string;
  latitude : Q;
  longitude : Q;
  altitude : Q
}.

(** A row of [routes_df] (the columns the engine reads). *)
Record Route : Type := mkRoute {
  airline : string;
  source_airport : string;
  destination_airport : string
}.

(** Attributes of a node of the graph. *)
Record NodeAttrs : Type := mkNode {
  node_name : string;
  node_city : string;
  node_country : string;
  node_latitude : Q;
  node_longitude : Q;
  node_altitude : Q
}.

(** Attributes of an edge of the graph. *)
Record EdgeAttrs : Type := mkEdge {
  distance : Q;
  time_cost : Q;
  monetary_cost : Q;
  edge_airline : string
}.

Definition edge_key : Type := (string * string)%type.

Record DiGraph : Type := mkGraph {
  nodes : list (string * NodeAttrs);
  edges : list (edge_key * EdgeAttrs)
}.

Definition empty_graph : DiGraph := mkGraph [] [].

Definition key_eqb (k1 k2 : edge_key) : bool :=
  String.eqb (fst k1) (fst k2) && String.eqb (snd k1) (snd k2).

Definition node_keys (g : DiGraph) : list string := map fst (nodes g).
Definition edge_keys (g : DiGraph) : list edge_key := map fst (edges g).

(** [n in G] *)
Definition has_node (g : DiGraph) (n : string) : bool :=
  existsb (String.eqb n) (node_keys g).

(** [G.has_edge(u, v)] *)
Definition has_edge (g : DiGraph) (u v : string) : bool :=
  existsb (key_eqb (u, v)) (edge_keys g).

(** [G[u][v]], [None] when Python raises [KeyError]. *)
Definition get_edge (g : DiGraph) (u v : string) : option EdgeAttrs :=
  option_map snd (find (fun e => key_eqb (u, v) (fst e)) (edges g)).

(** [G.nodes[n]] *)
Definition get_node (g : DiGraph) (n : string) : option NodeAttrs :=
  option_map snd (find (fun e => String.eqb n (fst e)) (nodes g)).

Fixpoint set_node (l : list (string * NodeAttrs)) (n : string) (a : NodeAttrs)
  : list (string * NodeAttrs) :=
  match l with
  | [] => [(n, a)]
  | (m, b) :: rest =>
      if String.eqb n m then (m, a) :: rest else (m, b) :: set_node rest n a
  end.

(** [G.add_node(n, **attrs)]: a new node goes last; a known one keeps its
    place and takes the new attributes. *)
Definition add_node (g : DiGraph) (n : string) (a : NodeAttrs) : DiGraph :=
  mkGraph (set_node (nodes g) n a) (edges g).

Fixpoint set_edge (l : list (edge_key * EdgeAttrs)) (k : edge_key) (a : EdgeAttrs)
  : list (edge_key * EdgeAttrs) :=
  match l with
  | [] => [(k, a)]
  | (k', b) :: rest =>
      if key_eqb k k' then (k', a) :: rest else (k', b) :: set_edge rest k a
  end.

(** [G.add_edge(u, v, **attrs)] for endpoints that are nodes already (the
    only use in the engine): a new edge goes last. *)
Definition add_edge (g : DiGraph) (u v : string) (a : EdgeAttrs) : DiGraph :=
  mkGraph (nodes g) (set_edge (edges g) (u, v) a).

(** [G[u][v].update({distance, time_cost, monetary_cost, airline})]: all
    four attributes of the existing edge are overwritten in place. *)
Definition update_edge (g : DiGraph) (u v : string) (a : EdgeAttrs) : DiGraph :=
  mkGraph (nodes g) (set_edge (edges g) (u, v) a).

(** [G.remove_node(n)]: the node and every edge incident to it. *)
Definition remove_node (g : DiGraph) (n : string) : DiGraph :=
  mkGraph
    (filter (fun e => negb (String.eqb n (fst e))) (nodes g))
    (filter (fun e => negb (String.eqb n (fst (fst e)))
                      && negb (String.eqb n (snd (fst e)))) (edges g)).

(** [G.in_degree(n)], [G.out_degree(n)], [G.degree(n)] *)
Definition in_degree (g : DiGraph) (n : string) : nat :=
  List.length (filter (fun k => String.eqb n (snd k)) (edge_keys g)).
Definition out_degree (g : DiGraph) (n : string) : nat :=
  List.length (filter (fun k => String.eqb n (fst k)) (edge_keys g)).
Definition degree (g : DiGraph) (n : string) : nat :=
  (in_degree g n + out_degree g n)%nat.

(* ================================================================== *)
(** * Building the network ([FlightGraph._build_graph]) *)

Section Build.

(** [geodesic((lat1, lon1), (lat2, lon2)).kilometers] of [geopy]. *)
Variable geodesic_km : Q -> Q -> Q -> Q -> Q.

Definition _calculate_distance (src_lat src_lon dst_lat dst_lon : Q) : Q :=
  geodesic_km src_lat src_lon dst_lat dst_lon.

Definition airport_node (a : Airport) : NodeAttrs :=
  mkNode (name a) (city a) (country a) (latitude a) (longitude a) (altitude a).

Definition add_airport (g : DiGraph) (a : Airport) : DiGraph :=
  add_node g (iata a) (airport_node a).

(** [code in valid_iata_codes] *)
Definition valid_iata (airports : list Airport) (code : string) : bool :=
  existsb (String.eqb code) (map iata airports).

(** [airports_df[airports_df['iata'] == code].iloc[0]] *)
Definition airport_row (airports : list Airport) (code : string) : option Airport :=
  find (fun a => String.eqb (iata a) code) airports.

(** The attributes the loop computes for a route between two rows. *)
Definition route_edge (sa da : Airport) (r : Route) : EdgeAttrs :=
  let d := _calculate_distance (latitude sa) (longitude sa)
                               (latitude da) (longitude da) in
  mkEdge d (d / 800) (d * Config.BASE_COST_PER_KM) (airline r).

(** One iteration of the loop over [routes_df]. *)
Definition add_route (airports : list Airport) (g : DiGraph) (r : Route) : DiGraph :=
  let src := source_airport r in
  let dst := destination_airport r in
  if negb (valid_iata airports src) || negb (valid_iata airports dst) then g
  else
    match airport_row airports src, airport_row airports dst with
    | Some sa, Some da =>
        let e := route_edge sa da r in
        match get_edge g src dst with
        | Some existing =>
            if Qlt_bool (monetary_cost e) (monetary_cost existing)
            then update_edge g src dst e
            else g
        | None => add_edge g src dst e
        end
    | _, _ => g   (* not reached: a valid code has a row *)
    end.

Definition _build_graph (airports : list Airport) (routes : list Route) : DiGraph :=
  fold_left (add_route airports) routes
            (fold_left add_airport airports empty_graph).

End Build.

(* ================================================================== *)
(** * Paths *)

(** The edge attribute a search minimises. *)
Inductive edge_attr : Type :=
| attr_time_cost
| attr_distance
| attr_monetary_cost.

Definition edge_weight (w : edge_attr) (e : EdgeAttrs) : Q :=
  match w with
  | attr_time_cost => time_cost e
  | attr_distance => distance e
  | attr_monetary_cost => monetary_cost e
  end.

(** [weight_map.get(cost_type, 'time_cost')] *)
Definition weight_map_get (cost_type : string) : edge_attr :=
  if String.eqb cost_type "time" then attr_time_cost
  else if String.eqb cost_type "distance" then attr_distance
  else if String.eqb cost_type "cost" then attr_monetary_cost
  else attr_time_cost.

(** Every consecutive pair of [p] is an edge of [g]. *)
Fixpoint is_walk (g : DiGraph) (p : list string) : bool :=
  match p with
  | u :: ((v :: _) as rest) => has_edge g u v && is_walk g rest
  | _ => true
  end.

Definition starts_at (s : string) (p : list string) : bool :=
  match p with
  | x :: _ => String.eqb x s
  | [] => false
  end.

Fixpoint ends_at (t : string) (p : list string) : bool :=
  match p with
  | [] => false
  | [x] => String.eqb x t
  | _ :: rest => ends_at t rest
  end.

(** [p] is a non-empty walk of [g] that starts at [s] and ends at [t]. *)
Definition is_path (g : DiGraph) (s t : string) (p : list string) : Prop :=
  starts_at s p && ends_at t p && is_walk g p = true.

(** A simple path: a path that visits no node twice. *)
Definition simple_path (g : DiGraph) (s t : string) (p : list string) : Prop :=
  is_path g s t p /\ NoDup p.

(** Total weight of a walk: the sum of the chosen attribute over its legs. *)
Fixpoint path_weight (g : DiGraph) (w : edge_attr) (p : list string) : Q :=
  match p with
  | u :: ((v :: _) as rest) =>
      match get_edge g u v with
      | Some e => edge_weight w e
      | None => 0
      end + path_weight g w rest
  | _ => 0
  end.

Definition nonneg_weights (g : DiGraph) (w : edge_attr) : bool :=
  forallb (fun e => Qle_bool 0 (edge_weight w (snd e))) (edges g).

(** [len(path) - 2] *)
Definition stop_count (p : list string) : Z := (len p - 2)%Z.

(* ================================================================== *)
(** * The path searches of networkx

    [nx.shortest_path(G, s, t, weight=w)] and the generator
    [nx.shortest_simple_paths(G, s, t, weight=w)] are library code.  The
    generator is modelled by the finite sequence of the paths it yields, in
    order (it raises [NetworkXNoPath] on the first pull exactly when that
    sequence is empty).  The laws are the part of the documented contract
    of the two functions the engine's properties rest on; the ones about
    minimal weight are stated for non-negative weights, as Dijkstra's
    algorithm needs. *)

Class NetworkX : Type := {
  nx_shortest_path :
    DiGraph -> string -> string -> edge_attr -> result (list string);
  nx_shortest_simple_paths :
    DiGraph -> string -> string -> edge_attr -> list (list string);

  shortest_path_unknown : forall g s t w,
    has_node g s = false \/ has_node g t = false ->
    nx_shortest_path g s t w = Raise NodeNotFound;
  shortest_path_outcome : forall g s t w,
    has_node g s = true -> has_node g t = true ->
    (exists p, nx_shortest_path g s t w = Ok p)
    \/ nx_shortest_path g s t w = Raise NetworkXNoPath;
  shortest_path_same : forall g s w,
    has_node g s = true -> nx_shortest_path g s s w = Ok [s];
  shortest_path_is_path : forall g s t w p,
    nx_shortest_path g s t w = Ok p -> is_path g s t p;
  shortest_path_none : forall g s t w,
    nx_shortest_path g s t w = Raise NetworkXNoPath ->
    forall p, ~ simple_path g s t p;
  shortest_path_optimal : forall g s t w p,
    nonneg_weights g w = true ->
    nx_shortest_path g s t w = Ok p ->
    forall q, simple_path g s t q -> path_weight g w p <= path_weight g w q;

  simple_paths_nodup : forall g s t w,
    has_node g s = true -> has_node g t = true ->
    nonneg_weights g w = true ->
    NoDup (nx_shortest_simple_paths g s t w);
  simple_paths_complete : forall g s t w p,
    has_node g s = true -> has_node g t = true ->
    nonneg_weights g w = true ->
    (In p (nx_shortest_simple_paths g s t w) <-> simple_path g s t p);
  simple_paths_sorted : forall g s t w,
    has_node g s = true -> has_node g t = true ->
    nonneg_weights g w = true ->
    StronglySorted
      (fun p q => path_weight g w p <= path_weight g w q)
      (nx_shortest_simple_paths g s t w)
}.

(* ================================================================== *)
(** * The flight graph ([src/app/models/graph.py])

    A [FlightGraph] object is represented by its [graph] field. *)

(** [FlightGraph.get_transfer_time], in hours. *)
Definition get_transfer_time (airport_code : string) (is_international : bool) : Q :=
  if is_international
  then inject_Z Config.INTERNATIONAL_TRANSFER_TIME / 60
  else inject_Z Config.DEFAULT_TRANSFER_TIME / 60.

(** An entry of [segments]. *)
Record Segment : Type := mkSegment {
  seg_from : string;
  seg_to : string;
  seg_distance : Q;
  seg_time : Q;
  seg_cost : Q;
  seg_airline : string
}.

(** The dictionary [_calculate_path_metrics] returns. *)
Record PathResult : Type := mkPathResult {
  path : list string;
  segments : list Segment;
  stops : Z;
  total_distance : Q;
  total_flight_time : Q;
  total_transfer_time : Q;
  total_time : Q;
  total_cost : Q
}.

(** The running totals of the loop over the legs. *)
Record Totals : Type := mkTotals {
  acc_distance : Q;
  acc_time : Q;
  acc_cost : Q;
  acc_segments : list Segment
}.

Definition leg_segment (u v : string) (e : EdgeAttrs) : Segment :=
  mkSegment u v
    (py_round (distance e) 2) (py_round (time_cost e) 2)
    (py_round (monetary_cost e) 2) (edge_airline e).

(** [for i in range(len(path) - 1)]: a leg with no edge raises [KeyError]. *)
Fixpoint legs_loop (g : DiGraph) (p : list string) (acc : Totals) : result Totals :=
  match p with
  | u :: ((v :: _) as rest) =>
      match get_edge g u v with
      | None => Raise KeyError
      | Some e =>
          legs_loop g rest
            (mkTotals (acc_distance acc + distance e)
                      (acc_time acc + time_cost e)
                      (acc_cost acc + monetary_cost e)
                      (acc_segments acc ++ [leg_segment u v e]))
      end
  | _ => Ok acc
  end.

(** [path[1 : len(path) - 1]]: the intermediate airports. *)
Definition intermediate (p : list string) : list string := removelast (tl p).

(** [for i in range(1, len(path) - 1): transfer_time += get_transfer_time(path[i])];
    the range is empty unless [len(path) > 2], the guard of the source. *)
Definition transfer_loop (p : list string) : Q :=
  fold_left (fun acc a => acc + get_transfer_time a false) (intermediate p) 0.

(** [FlightGraph._calculate_path_metrics] *)
Definition _calculate_path_metrics (g : DiGraph) (p : list string) : result PathResult :=
  acc <- legs_loop g p (mkTotals 0 0 0 []) ;;
  let transfer_time := transfer_loop p in
  Ok (mkPathResult p (acc_segments acc) (len p - 2)
        (py_round (acc_distance acc) 2)
        (py_round (acc_time acc) 2)
        (py_round transfer_time 2)
        (py_round (acc_time acc + transfer_time) 2)
        (py_round (acc_cost acc) 2)).

Section Searches.

Context {nx : NetworkX}.

(** [FlightGraph.find_shortest_path]; [Ok None] is Python's [None]. *)
Definition find_shortest_path (g : DiGraph) (source target cost_type : string)
    (max_stops : option Z) : result (option PathResult) :=
  if negb (has_node g source) || negb (has_node g target) then Ok None
  else
    let weight := weight_map_get cost_type in
    match nx_shortest_path g source target weight with
    | Ok p =>
        let num_stops := (len p - 2)%Z in
        match max_stops with
        | Some m =>
            if (num_stops >? m)%Z then Ok None
            else r <- _calculate_path_metrics g p ;; Ok (Some r)
        | None => r <- _calculate_path_metrics g p ;; Ok (Some r)
        end
    | Raise NetworkXNoPath => Ok None
    | Raise e => Raise e
    end.

(** The body of [for path in nx.shortest_simple_paths(...)], over the paths
    the generator has still to yield; [paths] is the list built so far.
    A path result is a non-empty dictionary, so [if path_metrics] holds. *)
Fixpoint k_paths_loop (g : DiGraph) (k : Z) (gen : list (list string))
    (paths : list PathResult) : result (list PathResult) :=
  match gen with
  | [] => Ok paths
  | p :: rest =>
      if (len p - 2 >? Config.MAX_STOPS)%Z then k_paths_loop g k rest paths
      else
        path_metrics <- _calculate_path_metrics g p ;;
        let paths' := (paths ++ [path_metrics])%list in
        if (len paths' >=? k)%Z then Ok paths'
        else k_paths_loop g k rest paths'
  end.

(** [FlightGraph.find_k_shortest_paths].  [NetworkXNoPath], raised on the
    first pull when there is no path, is the empty sequence here, on which
    the loop returns the empty list as the handler of the source does. *)
Definition find_k_shortest_paths (g : DiGraph) (source target : string) (k : Z)
    (cost_type : string) : result (list PathResult) :=
  if negb (has_node g source) || negb (has_node g target) then Ok []
  else
    let weight := weight_map_get cost_type in
    k_paths_loop g k (nx_shortest_simple_paths g source target weight) [].

End Searches.

(* ================================================================== *)
(** * Hub analysis ([src/app/services/hub_analysis.py])

    A [HubAnalyzer] holds the flight graph it was made from; its methods
    take that graph as their first argument. *)

(** [nx.degree_centrality(G)[n]]: every node scores 1 in a graph of at most
    one node, and its degree times [1 / (len(G) - 1)] otherwise. *)
Definition nx_degree_centrality (g : DiGraph) (n : string) : Q :=
  let N := List.length (nodes g) in
  if (N <=? 1)%nat then 1
  else inject_Z (Z.of_nat (degree g n)) * (1 / (inject_Z (Z.of_nat N) - 1)).

(** An entry of [centrality_data]: the fields that derive from degrees.  The
    betweenness, closeness and PageRank scores are iterative floating-point
    computations of networkx and are left out of the record. *)
Record CentralityRecord : Type := mkCentrality {
  c_iata : string;
  c_name : string;
  c_city : string;
  c_country : string;
  degree_centrality : Q;
  c_in_degree : nat;
  c_out_degree : nat;
  c_total_degree : nat
}.

Definition node_attr (g : DiGraph) (n : string) (f : NodeAttrs -> string) : string :=
  match get_node g n with
  | Some a => f a
  | None => ""
  end.

Definition centrality_entry (g : DiGraph) (airport : string) : CentralityRecord :=
  mkCentrality airport
    (node_attr g airport node_name)
    (node_attr g airport node_city)
    (node_attr g airport node_country)
    (py_round (nx_degree_centrality g airport) 6)
    (in_degree g airport) (out_degree g airport) (degree g airport).

(** [HubAnalyzer.calculate_centrality_metrics] *)
Definition calculate_centrality_metrics (g : DiGraph)
  : list (string * CentralityRecord) :=
  map (fun airport => (airport, centrality_entry g airport)) (node_keys g).

(** The dictionary [analyze_hub_removal] returns; the four increases are
    keys that are present only when both paths are. *)
Record Impact : Type := mkImpact {
  removed_hubs : list string;
  original_path : option PathResult;
  alternative_path : option PathResult;
  path_exists : bool;
  time_increase : option Q;
  cost_increase : option Q;
  distance_increase : option Q;
  stops_increase : option Z
}.

(** [temp_graph = self.graph.copy()] followed by the removal loop. *)
Definition remove_hubs (g : DiGraph) (source target : string)
    (hubs_to_remove : list string) : DiGraph :=
  fold_left
    (fun temp_graph hub =>
       if has_node temp_graph hub
          && negb (String.eqb hub source) && negb (String.eqb hub target)
       then remove_node temp_graph hub
       else temp_graph)
    hubs_to_remove g.

Definition is_some {A : Type} (o : option A) : bool :=
  match o with
  | Some _ => true
  | None => false
  end.

Section HubAnalyzer.

Context {nx : NetworkX}.

(** [HubAnalyzer.analyze_hub_removal].  The source points the flight graph
    at [temp_graph] while the metrics of the alternative are computed and
    back afterwards; here the metrics take [temp_graph] as an argument. *)
Definition analyze_hub_removal (g : DiGraph) (source target : string)
    (hubs_to_remove : list string) : result Impact :=
  original <- find_shortest_path g source target "time" None ;;
  let temp_graph := remove_hubs g source target hubs_to_remove in
  alternative <-
    match nx_shortest_path temp_graph source target attr_time_cost with
    | Ok alt_path_nodes =>
        r <- _calculate_path_metrics temp_graph alt_path_nodes ;; Ok (Some r)
    | Raise NetworkXNoPath => Ok None
    | Raise e => Raise e
    end ;;
  match original, alternative with
  | Some o, Some a =>
      Ok (mkImpact hubs_to_remove original alternative (is_some alternative)
            (Some (py_round (total_time a - total_time o) 2))
            (Some (py_round (total_cost a - total_cost o) 2))
            (Some (py_round (total_distance a - total_distance o) 2))
            (Some (stops a - stops o)%Z))
  | _, _ =>
      Ok (mkImpact hubs_to_remove original alternative (is_some alternative)
            None None None None)
  end.

End HubAnalyzer.

(** An entry of a hub option's [segments]. *)
Record HubSegment : Type := mkHubSegment {
  hseg_from : string;
  hseg_to : string;
  hseg_distance : Q;
  hseg_time : Q;
  hseg_cost : Q
}.

(** An entry of the list [find_alternative_hubs] builds. *)
Record HubOption : Type := mkHubOption {
  hub : string;
  hub_name : string;
  hub_city : string;
  hub_country : string;
  is_international_transfer : bool;
  hub_total_time : Q;
  hub_total_distance : Q;
  hub_total_cost : Q;
  hub_transfer_time : Q;
  hub_segments : list HubSegment
}.

(** The attributes of a [FlightGraph] object: the fields [__init__] sets
    and the methods the class defines. *)
Definition FlightGraph_attributes : list string :=
  [ "airports_df"; "routes_df"; "graph"; "__init__"; "_calculate_distance";
    "_build_graph"; "get_transfer_time"; "find_shortest_path";
    "find_k_shortest_paths"; "_calculate_path_metrics"; "get_graph_stats";
    "export_to_gexf" ].

(** Modelled from the spec: the Country Index, which "maps an airport code
    to its country".  [find_alternative_hubs] asks the flight graph for it
    under the name [_get_country_by_iata]; class [FlightGraph] defines no
    attribute of that name. *)
Definition country_index (g : DiGraph) (code : string) : option string :=
  option_map node_country (get_node g code).

(** [self.flight_graph._get_country_by_iata]: the attribute lookup. *)
Definition FlightGraph_get_country_by_iata (g : DiGraph)
  : result (string -> option string) :=
  if existsb (String.eqb "_get_country_by_iata") FlightGraph_attributes
  then Ok (country_index g)
  else Raise (AttributeError "_get_country_by_iata").

(** Truth value of a country: a missing or empty one is false. *)
Definition truthy (c : option string) : bool :=
  match c with
  | Some s => negb (String.eqb s "")
  | None => false
  end.

Definition option_string_eqb (a b : option string) : bool :=
  match a, b with
  | Some x, Some y => String.eqb x y
  | None, None => true
  | _, _ => false
  end.

(** A stable sort by ascending key, as [list.sort(key=...)] is. *)
Fixpoint insert_by {A : Type} (key : A -> Q) (x : A) (l : list A) : list A :=
  match l with
  | [] => [x]
  | y :: rest =>
      if Qle_bool (key x) (key y) then x :: y :: rest
      else y :: insert_by key x rest
  end.

Definition sort_by {A : Type} (key : A -> Q) (l : list A) : list A :=
  fold_right (insert_by key) [] l.

(** [l[:k]] *)
Definition slice_to {A : Type} (l : list A) (k : Z) : list A :=
  if (k <? 0)%Z then firstn (Z.to_nat (len l + k)) l
  else firstn (Z.to_nat k) l.

(** The option the loop appends for one candidate hub, [None] when the loop
    skips it. *)
Definition hub_option (g : DiGraph) (get_country : string -> option string)
    (source target primary_hub potential_hub : string) : option HubOption :=
  if String.eqb potential_hub source || String.eqb potential_hub target
     || String.eqb potential_hub primary_hub
  then None
  else if negb (has_edge g source potential_hub && has_edge g potential_hub target)
  then None
  else
    match get_edge g source potential_hub, get_edge g potential_hub target with
    | Some src_to_hub, Some hub_to_dst =>
        let country_source := get_country source in
        let country_target := get_country target in
        let country_hub := get_country potential_hub in
        let is_international :=
          truthy country_source && truthy country_hub && truthy country_target
          && (negb (option_string_eqb country_source country_hub)
              || negb (option_string_eqb country_hub country_target)) in
        let transfer_time_hub := get_transfer_time potential_hub is_international in
        let total_time :=
          time_cost src_to_hub + time_cost hub_to_dst + transfer_time_hub in
        let total_distance := distance src_to_hub + distance hub_to_dst in
        let total_cost := monetary_cost src_to_hub + monetary_cost hub_to_dst in
        Some (mkHubOption potential_hub
                (node_attr g potential_hub node_name)
                (node_attr g potential_hub node_city)
                (node_attr g potential_hub node_country)
                is_international
                (py_round total_time 2)
                (py_round total_distance 2)
                (py_round total_cost 2)
                (py_round transfer_time_hub 2)
                [ mkHubSegment source potential_hub
                    (py_round (distance src_to_hub) 2)
                    (py_round (time_cost src_to_hub) 2)
                    (py_round (monetary_cost src_to_hub) 2);
                  mkHubSegment potential_hub target
                    (py_round (distance hub_to_dst) 2)
                    (py_round (time_cost hub_to_dst) 2)
                    (py_round (monetary_cost hub_to_dst) 2) ])
    | _, _ => None
    end.

Fixpoint filter_map {A B : Type} (f : A -> option B) (l : list A) : list B :=
  match l with
  | [] => []
  | x :: rest =>
      match f x with
      | Some y => y :: filter_map f rest
      | None => filter_map f rest
      end
  end.

(** [HubAnalyzer.find_alternative_hubs] *)
Definition find_alternative_hubs (g : DiGraph)
    (source target primary_hub : string) (top_k : Z) : result (list HubOption) :=
  get_country <- FlightGraph_get_country_by_iata g ;;
  let alternatives :=
    filter_map (hub_option g get_country source target primary_hub) (node_keys g) in
  Ok (slice_to (sort_by hub_total_time alternatives) top_k).

(* ================================================================== *)
(** * A reference implementation of the networkx interface

    Exhaustive enumeration of the simple paths, then a stable sort by total
    weight.  It shows that the laws of [NetworkX] can be met, and gives the
    examples something to run. *)

(** [G.successors(u)] *)
Definition successors (g : DiGraph) (u : string) : list string :=
  nodup string_dec
    (map snd (filter (fun k => String.eqb u (fst k)) (edge_keys g))).

(** The simple paths from [u] to [t] that avoid [visited], of at most
    [fuel] legs. *)
Fixpoint simple_paths_from (fuel : nat) (g : DiGraph) (t : string)
    (visited : list string) (u : string) : list (list string) :=
  if String.eqb u t then [[u]]
  else
    match fuel with
    | O => []
    | S fuel' =>
        flat_map
          (fun v =>
             if existsb (String.eqb v) (u :: visited) then []
             else map (cons u) (simple_paths_from fuel' g t (u :: visited) v))
          (successors g u)
    end.

Definition all_simple_paths (g : DiGraph) (s t : string) : list (list string) :=
  simple_paths_from (List.length (edges g)) g t [] s.

Definition ref_shortest_simple_paths (g : DiGraph) (s t : string) (w : edge_attr)
  : list (list string) :=
  sort_by (path_weight g w) (all_simple_paths g s t).

Definition ref_shortest_path (g : DiGraph) (s t : string) (w : edge_attr)
  : result (list string) :=
  if negb (has_node g s) || negb (has_node g t) then Raise NodeNotFound
  else
    match ref_shortest_simple_paths g s t w with
    | [] => Raise NetworkXNoPath
    | p :: _ => Ok p
    end.

(* ================================================================== *)
(** * Definitions used to state the properties *)

(** Deduplication as the specification words it: among the candidate edges
    of one ordered pair, taken in input order, a later candidate replaces
    the kept edge only when its monetary cost is strictly lower. *)
Fixpoint keep_lowest (kept : EdgeAttrs) (candidates : list EdgeAttrs) : EdgeAttrs :=
  match candidates with
  | [] => kept
  | c :: rest =>
      keep_lowest
        (if Qlt_bool (monetary_cost c) (monetary_cost kept) then c else kept)
        rest
  end.

Definition dedup_min_cost (candidates : list EdgeAttrs) : option EdgeAttrs :=
  match candidates with
  | [] => None
  | c :: rest => Some (keep_lowest c rest)
  end.

(** The candidate edge an input route contributes to the ordered pair
    [(s, d)]: none unless the route joins [s] to [d] and both are airports
    of the input. *)
Definition candidate (geodesic_km : Q -> Q -> Q -> Q -> Q)
    (airports : list Airport) (s d : string) (r : Route) : option EdgeAttrs :=
  if String.eqb (source_airport r) s && String.eqb (destination_airport r) d
     && valid_iata airports s && valid_iata airports d
  then
    match airport_row airports s, airport_row airports d with
    | Some sa, Some da => Some (route_edge geodesic_km sa da r)
    | _, _ => None
    end
  else None.

Definition candidates (geodesic_km : Q -> Q -> Q -> Q -> Q)
    (airports : list Airport) (routes : list Route) (s d : string)
  : list EdgeAttrs :=
  filter_map (candidate geodesic_km airports s d) routes.

(** The paths of a list of results. *)
Definition paths_of (l : list PathResult) : list (list string) := map path l.

(** Sum of an attribute over the legs of a walk, in full precision. *)
Definition legs_total (g : DiGraph) (w : edge_attr) (p : list string) : Q :=
  path_weight g w p.

(** The segments of a walk: one per leg, display fields rounded. *)
Fixpoint leg_segments (g : DiGraph) (p : list string) : list Segment :=
  match p with
  | u :: ((v :: _) as rest) =>
      match get_edge g u v with
      | Some e => leg_segment u v e :: leg_segments g rest
      | None => leg_segments g rest
      end
  | _ => []
  end.

(** A path the k-shortest enumeration keeps: at most [MAX_STOPS] stops. *)
Definition within_max_stops (p : list string) : bool :=
  (stop_count p <=? Config.MAX_STOPS)%Z.

(* ------------------------------------------------------------------ *)
(** ** A small network to run the engine on

    Airports on a grid, with the taxicab distance standing for the
    geodesic: AAA, BBB, CCC and DDD lie on a line 800 km apart, EEE lies off
    the line.  AAA reaches DDD through BBB and CCC (2400 km, two stops) or
    through EEE (5600 km, one stop). *)

Definition taxicab (lat1 lon1 lat2 lon2 : Q) : Q :=
  Qabs (lat1 - lat2) + Qabs (lon1 - lon2).

Definition example_airports : list Airport :=
  [ mkAirport "AAA" "Alpha" "Alphaville" "Aland" 0 0 0;
    mkAirport "BBB" "Bravo" "Bravotown" "Aland" 0 800 0;
    mkAirport "CCC" "Charlie" "Charlieburg" "Aland" 0 1600 0;
    mkAirport "DDD" "Delta" "Deltaport" "Dland" 0 2400 0;
    mkAirport "EEE" "Echo" "Echo City" "Eland" 1600 1200 0 ].

Definition example_routes : list Route :=
  [ mkRoute "XA" "AAA" "BBB"; mkRoute "XA" "BBB" "CCC";
    mkRoute "XB" "CCC" "DDD"; mkRoute "XC" "AAA" "EEE";
    mkRoute "XC" "EEE" "DDD"; mkRoute "XD" "AAA" "BBB";
    mkRoute "XE" "ZZZ" "AAA" ].

Definition example_network : DiGraph :=
  _build_graph taxicab example_airports example_routes.

(** Two airports joined in both directions. *)
Definition pair_airports : list Airport :=
  [ mkAirport "AAA" "Alpha" "Alphaville" "Aland" 0 0 0;
    mkAirport "BBB" "Bravo" "Bravotown" "Aland" 0 800 0 ].

Definition pair_routes : list Route :=
  [ mkRoute "XA" "AAA" "BBB"; mkRoute "XA" "BBB" "AAA" ].

Definition pair_network : DiGraph :=
  _build_graph taxicab pair_airports pair_routes.

(** The structural invariant of a [networkx.DiGraph]: a node or an ordered
    pair is a key at most once, and the endpoints of an edge are nodes. *)
Definition well_formed (g : DiGraph) : Prop :=
  NoDup (node_keys g) /\ NoDup (edge_keys g)
  /\ forall u v, In (u, v) (edge_keys g) ->
                 In u (node_keys g) /\ In v (node_keys g).

(** [len(G)] *)
Definition number_of_nodes (g : DiGraph) : nat := List.length (nodes g).

(** A line of six airports, AAA to FFF, and GGG off the line: AAA reaches
    FFF along the line (4000 km, four stops) or through GGG (10000 km, one
    stop). *)
Definition line_airports : list Airport :=
  [ mkAirport "AAA" "Alpha" "Alphaville" "Aland" 0 0 0;
    mkAirport "BBB" "Bravo" "Bravotown" "Aland" 0 800 0;
    mkAirport "CCC" "Charlie" "Charlieburg" "Aland" 0 1600 0;
    mkAirport "DDD" "Delta" "Deltaport" "Dland" 0 2400 0;
    mkAirport "EEE" "Echo" "Echo City" "Eland" 0 3200 0;
    mkAirport "FFF" "Foxtrot" "Foxton" "Fland" 0 4000 0;
    mkAirport "GGG" "Golf" "Golfstad" "Gland" 3000 2000 0 ].

Definition line_routes : list Route :=
  [ mkRoute "XA" "AAA" "BBB"; mkRoute "XA" "BBB" "CCC";
    mkRoute "XA" "CCC" "DDD"; mkRoute "XA" "DDD" "EEE";
    mkRoute "XA" "EEE" "FFF"; mkRoute "XG" "AAA" "GGG";
    mkRoute "XG" "GGG" "FFF" ].

Definition line_network : DiGraph :=
  _build_graph taxicab line_airports line_routes.

(** The legs of a node sequence. *)
Fixpoint legs (p : list string) : list edge_key :=
  match p with
  | u :: ((v :: _) as rest) => (u, v) :: legs rest
  | _ => []
  end.


(** [p] is a simple walk from [u] to [t] that avoids [visited]. *)
Definition simple_from (g : DiGraph) (t : string) (visited : list string)
    (u : string) (p : list string) : Prop :=
  starts_at u p = true /\ ends_at t p = true /\ is_walk g p = true
  /\ NoDup p /\ (forall x, In x p -> ~ In x visited).


(** A graph whose AAA-BBB edge costs more than the route about to be read. *)
Definition costly_graph : DiGraph :=
  add_edge (fold_left add_airport example_airports empty_graph)
    "AAA" "BBB" (mkEdge 900 (9 # 8) 90 "XX").


(** Every weight of an edge is non-negative. *)
Definition nonneg_edge (e : EdgeAttrs) : Prop :=
  0 <= distance e /\ 0 <= time_cost e /\ 0 <= monetary_cost e.

(* ================================================================== *)
(** * The rest of the flight graph and of the hub analyzer *)

From Stdlib Require Import ListSet.

(** The dictionary [FlightGraph.get_graph_stats] returns, without
    [is_connected] and [num_components] (the component search of networkx
    is not modelled). *)
Record GraphStats : Type := mkStats {
  num_airports : nat;
  num_routes : nat;
  avg_degree : Q
}.

(** The division by [number_of_nodes()] raises on a graph with no node. *)
Inductive stats_outcome : Type :=
| StatsOk (s : GraphStats)
| ZeroDivisionError.

(** [sum(dict(self.graph.degree()).values())] *)
Definition degree_sum (g : DiGraph) : nat :=
  list_sum (map (degree g) (node_keys g)).

(** [FlightGraph.get_graph_stats] *)
Definition get_graph_stats (g : DiGraph) : stats_outcome :=
  let n := List.length (nodes g) in
  if (n =? 0)%nat then ZeroDivisionError
  else
    StatsOk
      (mkStats n (List.length (edges g))
         (py_round (inject_Z (Z.of_nat (degree_sum g)) / inject_Z (Z.of_nat n)) 2)).

(** [G.predecessors(n)] *)
Definition predecessors (g : DiGraph) (u : string) : list string :=
  nodup string_dec
    (map fst (filter (fun k => String.eqb u (snd k)) (edge_keys g))).

(** The dictionary [HubAnalyzer.get_hub_connectivity] returns. *)
Record Connectivity : Type := mkConnectivity {
  hc_iata : string;
  hc_name : string;
  hc_city : string;
  hc_country : string;
  num_destinations : nat;
  num_origins : nat;
  total_connections : nat;
  countries_served : nat;
  top_destinations : list string;
  top_origins : list string
}.

(** [self.graph.nodes[n]['country']] *)
Definition node_country_of (g : DiGraph) (n : string) : result string :=
  match get_node g n with
  | Some a => Ok (node_country a)
  | None => Raise KeyError
  end.

(** [for n in l: countries.add(self.graph.nodes[n]['country'])] *)
Fixpoint add_countries (g : DiGraph) (l : list string) (countries : set string)
  : result (set string) :=
  match l with
  | [] => Ok countries
  | n :: rest =>
      c <- node_country_of g n ;;
      add_countries g rest (set_add string_dec c countries)
  end.

(** [HubAnalyzer.get_hub_connectivity] *)
Definition get_hub_connectivity (g : DiGraph) (hub : string)
  : result (option Connectivity) :=
  if negb (has_node g hub) then Ok None
  else
    let destinations := successors g hub in
    let origins := predecessors g hub in
    countries <- add_countries g destinations (empty_set string) ;;
    countries <- add_countries g origins countries ;;
    Ok (Some
          (mkConnectivity hub
             (node_attr g hub node_name)
             (node_attr g hub node_city)
             (node_attr g hub node_country)
             (List.length destinations)
             (List.length origins)
             (List.length (set_union string_dec destinations origins))
             (List.length countries)
             (firstn 10 destinations)
             (firstn 10 origins))).

(* ================================================================== *)
(** * The route handlers ([src/main.py])

    A handler reads the two globals set at startup: the data loader, here
    the list of airport rows it holds, and the flight graph built from the
    same rows.  It returns a value, raises an [HTTPException], or lets an
    exception of the engine through. *)

Module Api.

Inductive response (A : Type) : Type :=
| Returned (a : A)
| HTTPException (status_code : Z) (detail : string)
| Uncaught (e : exn).

Arguments Returned {A} a.
Arguments HTTPException {A} status_code detail.
Arguments Uncaught {A} e.

Record RouteRequest : Type := mkRouteRequest {
  rr_source : string;
  rr_destination : string;
  rr_cost_type : string;
  rr_max_stops : option Z;
  rr_k_paths : Z
}.

Record HubRemovalRequest : Type := mkHubRemovalRequest {
  hr_source : string;
  hr_destination : string;
  hr_hubs_to_remove : list string
}.

Record AlternativeHubsRequest : Type := mkAlternativeHubsRequest {
  ar_source : string;
  ar_destination : string;
  ar_primary_hub : string;
  ar_top_k : Z
}.

(** An entry of [path_details] of a route. *)
Record PathDetail : Type := mkPathDetail {
  pd_iata : string;
  pd_name : string;
  pd_city : string;
  pd_country : string;
  pd_latitude : Q;
  pd_longitude : Q
}.

(** A route with the [path_details] the handler adds to it. *)
Record RouteResponse : Type := mkRouteResponse {
  route : PathResult;
  path_details : list PathDetail
}.

(** An entry of [path_details] of a path of the removal analysis. *)
Record RemovalDetail : Type := mkRemovalDetail {
  rd_iata : string;
  rd_name : string;
  rd_city : string;
  rd_country : string
}.

(** The analysis with the [path_details] the handler adds to each path
    that is present. *)
Record RemovalResponse : Type := mkRemovalResponse {
  analysis : Impact;
  original_details : option (list RemovalDetail);
  alternative_details : option (list RemovalDetail)
}.

Record AlternativeHubsResponse : Type := mkAlternativeHubsResponse {
  ah_source : string;
  ah_destination : string;
  ah_primary_hub : string;
  ah_alternatives : list HubOption;
  ah_count : Z
}.

Section Handlers.

Context {nx : NetworkX}.

(** [str.upper] *)
Variable upper : string -> string.

(** [DataLoader.get_airport_by_iata] on loaded airports. *)
Definition get_airport_by_iata (airports : list Airport) (code : string)
  : option Airport :=
  airport_row airports (upper code).

(** [for iata in path: airport = get_airport_by_iata(iata); if airport: ...] *)
Definition details_of (airports : list Airport) (p : list string)
  : list PathDetail :=
  filter_map
    (fun code =>
       match get_airport_by_iata airports code with
       | Some a =>
           Some (mkPathDetail code (name a) (city a) (country a)
                   (latitude a) (longitude a))
       | None => None
       end)
    p.

Definition removal_details_of (airports : list Airport) (p : list string)
  : list RemovalDetail :=
  filter_map
    (fun code =>
       match get_airport_by_iata airports code with
       | Some a => Some (mkRemovalDetail code (name a) (city a) (country a))
       | None => None
       end)
    p.

Definition not_found (what code : string) : string :=
  what ++ " " ++ code ++ " not found".

(** [POST /routes/find] *)
Definition find_route (airports : list Airport) (g : DiGraph)
    (request : RouteRequest) : response RouteResponse :=
  let source := upper (rr_source request) in
  let destination := upper (rr_destination request) in
  if negb (has_node g source)
  then HTTPException 404 (not_found "Source airport" source)
  else if negb (has_node g destination)
  then HTTPException 404 (not_found "Destination airport" destination)
  else if String.eqb source destination
  then HTTPException 400 "Source and destination cannot be the same"
  else
    match find_shortest_path g source destination
            (rr_cost_type request) (rr_max_stops request) with
    | Raise e => Uncaught e
    | Ok None =>
        HTTPException 404
          ("No route found from " ++ source ++ " to " ++ destination)
    | Ok (Some r) => Returned (mkRouteResponse r (details_of airports (path r)))
    end.

(** [POST /hubs/removal-analysis] *)
Definition analyze_hub_removal (airports : list Airport) (g : DiGraph)
    (request : HubRemovalRequest) : response RemovalResponse :=
  let source := upper (hr_source request) in
  let destination := upper (hr_destination request) in
  let hubs := map upper (hr_hubs_to_remove request) in
  if negb (has_node g source)
  then HTTPException 404 (not_found "Source airport" source)
  else if negb (has_node g destination)
  then HTTPException 404 (not_found "Destination airport" destination)
  else if String.eqb source destination
  then HTTPException 400 "Source and destination cannot be the same"
  else
    match analyze_hub_removal g source destination hubs with
    | Raise e => Uncaught e
    | Ok a =>
        Returned
          (mkRemovalResponse a
             (option_map (fun r => removal_details_of airports (path r))
                (original_path a))
             (option_map (fun r => removal_details_of airports (path r))
                (alternative_path a)))
    end.

(** [POST /hubs/alternatives] *)
Definition find_alternative_hubs (airports : list Airport) (g : DiGraph)
    (request : AlternativeHubsRequest) : response AlternativeHubsResponse :=
  let source := upper (ar_source request) in
  let destination := upper (ar_destination request) in
  let primary_hub := upper (ar_primary_hub request) in
  if negb (has_node g source)
  then HTTPException 404 (not_found "Source airport" source)
  else if negb (has_node g destination)
  then HTTPException 404 (not_found "Destination airport" destination)
  else if negb (has_node g primary_hub)
  then HTTPException 404 (not_found "Primary hub" primary_hub)
  else
    match find_alternative_hubs g source destination primary_hub
            (ar_top_k request) with
    | Raise e => Uncaught e
    | Ok alternatives =>
        Returned
          (mkAlternativeHubsResponse source destination primary_hub
             alternatives (len alternatives))
    end.

End Handlers.

End Api.

(** [str.upper] on ASCII text, for the examples. *)
Definition ascii_upper (c : ascii) : ascii :=
  let n := nat_of_ascii c in
  if ((97 <=? n) && (n <=? 122))%nat then ascii_of_nat (n - 32) else c.

Fixpoint string_upper (s : string) : string :=
  match s with
  | EmptyString => EmptyString
  | String c rest => String (ascii_upper c) (string_upper rest)
  end.

(** The answer of [POST /routes/alternatives]. *)
Record AlternativeRoutesResponse : Type := mkAlternativeRoutesResponse {
  alt_source : string;
  alt_destination : string;
  alt_cost_type : string;
  alt_routes : list Api.RouteResponse;
  alt_count : Z
}.

Section AlternativeRoutes.

Context {nx : NetworkX}.
Variable upper : string -> string.

(** [POST /routes/alternatives] *)
Definition find_alternative_routes (airports : list Airport) (g : DiGraph)
    (request : Api.RouteRequest) : Api.response AlternativeRoutesResponse :=
  let source := upper (Api.rr_source request) in
  let destination := upper (Api.rr_destination request) in
  if negb (has_node g source)
  then Api.HTTPException 404 (Api.not_found "Source airport" source)
  else if negb (has_node g destination)
  then Api.HTTPException 404 (Api.not_found "Destination airport" destination)
  else if String.eqb source destination
  then Api.HTTPException 400 "Source and destination cannot be the same"
  else
    match find_k_shortest_paths g source destination
            (Api.rr_k_paths request) (Api.rr_cost_type request) with
    | Raise e => Api.Uncaught e
    | Ok [] =>
        Api.HTTPException 404
          ("No routes found from " ++ source ++ " to " ++ destination)
    | Ok routes =>
        let detailed :=
          map (fun r => Api.mkRouteResponse r
                          (Api.details_of upper airports (path r))) routes in
        Api.Returned
          (mkAlternativeRoutesResponse source destination
             (Api.rr_cost_type request) detailed (len detailed))
    end.

End AlternativeRoutes.

(* ================================================================== *)
(** * Properties of rounding *)






Lemma round_half_even_lower (q : Q) (m : Z) :
  inject_Z m <= q -> (m <= round_half_even q)%Z.
Proof.
  intros H. apply Qfloor_resp_le in H. rewrite Qfloor_Z in H.
  unfold round_half_even.
  destruct (Qcompare _ _); try lia.
  destruct (Z.even _); lia.
Qed.

Lemma round_half_even_upper (q : Q) (m : Z) :
  q <= inject_Z m -> (round_half_even q <= m)%Z.
Proof.
  intros H. pose proof (Qfloor_resp_le _ _ H) as F. rewrite Qfloor_Z in F.
  assert (G : ~ (1 # 2 <= q - inject_Z (Qfloor q)) \/ (Qfloor q + 1 <= m)%Z).
  { destruct (Z.eq_dec (Qfloor q) m) as [E | N]; [left | right; lia].
    rewrite E. lra. }
  unfold round_half_even.
  destruct (Qcompare_spec (q - inject_Z (Qfloor q)) (1 # 2)) as [E | L | L].
  - destruct (Z.even _); [lia |]. destruct G as [G | G]; [| lia]. exfalso. apply G. rewrite E. lra.
  - lia.
  - destruct G as [G | G]; [| lia]. exfalso. apply G. lra.
Qed.

Lemma pow10_pos (n : nat) : (0 < pow10 n)%Z.
Proof. unfold pow10. apply Z.pow_pos_nonneg; lia. Qed.

Lemma py_round_eq (q : Q) (n : nat) :
  py_round q n == inject_Z (round_half_even (q * inject_Z (pow10 n))) / inject_Z (pow10 n).
Proof. unfold py_round. apply Qred_correct. Qed.

Lemma py_round_bounds (q : Q) (n : nat) (lo hi : Z) :
  inject_Z lo <= q <= inject_Z hi ->
  inject_Z lo <= py_round q n <= inject_Z hi.
Proof.
  intros [L U]. rewrite py_round_eq.
  pose proof (pow10_pos n) as P.
  assert (PQ : 0 < inject_Z (pow10 n)) by (rewrite <- (Zlt_Qlt 0); exact P).
  assert (A : (lo * pow10 n <= round_half_even (q * inject_Z (pow10 n)))%Z).
  { apply round_half_even_lower. rewrite inject_Z_mult. apply Qmult_le_compat_r; lra. }
  assert (B : (round_half_even (q * inject_Z (pow10 n)) <= hi * pow10 n)%Z).
  { apply round_half_even_upper. rewrite inject_Z_mult. apply Qmult_le_compat_r; lra. }
  rewrite Zle_Qle in A, B. rewrite inject_Z_mult in A, B.
  split.
  - apply Qle_shift_div_l; assumption.
  - apply Qle_shift_div_r; assumption.
Qed.


(* ================================================================== *)
(** * Properties of the graph operations *)

Lemma key_eqb_eq (k1 k2 : edge_key) : key_eqb k1 k2 = true <-> k1 = k2.
Proof.
  destruct k1 as [a b], k2 as [c d]. unfold key_eqb. simpl.
  rewrite andb_true_iff, !String.eqb_eq. split.
  - intros [-> ->]. reflexivity.
  - intros E. inversion E. split; reflexivity.
Qed.

Lemma key_eqb_refl (k : edge_key) : key_eqb k k = true.
Proof. apply key_eqb_eq. reflexivity. Qed.

Lemma key_eqb_neq (k1 k2 : edge_key) : key_eqb k1 k2 = false <-> k1 <> k2.
Proof.
  rewrite <- key_eqb_eq. destruct (key_eqb k1 k2); split; congruence.
Qed.

Lemma existsb_eqb_In (x : string) (l : list string) :
  existsb (String.eqb x) l = true <-> In x l.
Proof.
  rewrite existsb_exists. split.
  - intros [y [H E]]. apply String.eqb_eq in E. subst. exact H.
  - intros H. exists x. split; [exact H | apply String.eqb_refl].
Qed.

Lemma has_node_In (g : DiGraph) (n : string) :
  has_node g n = true <-> In n (node_keys g).
Proof. apply existsb_eqb_In. Qed.

Lemma has_edge_In (g : DiGraph) (u v : string) :
  has_edge g u v = true <-> In (u, v) (edge_keys g).
Proof.
  unfold has_edge. rewrite existsb_exists. split.
  - intros [k [H E]]. apply key_eqb_eq in E. subst. exact H.
  - intros H. exists (u, v). split; [exact H | apply key_eqb_refl].
Qed.

Lemma find_edge_some (l : list (edge_key * EdgeAttrs)) (k : edge_key) :
  In k (map fst l) -> exists e, find (fun x => key_eqb k (fst x)) l = Some (k, e).
Proof.
  induction l as [| [k' e'] l IH]; simpl; [tauto |].
  intros [E | H].
  - subst. rewrite key_eqb_refl. eauto.
  - destruct (key_eqb k k') eqn:K.
    + apply key_eqb_eq in K. subst. eauto.
    + auto.
Qed.

Lemma find_edge_none (l : list (edge_key * EdgeAttrs)) (k : edge_key) :
  ~ In k (map fst l) -> find (fun x => key_eqb k (fst x)) l = None.
Proof.
  induction l as [| [k' e'] l IH]; simpl; [reflexivity |].
  intros H. destruct (key_eqb k k') eqn:K.
  - apply key_eqb_eq in K. subst. tauto.
  - apply IH. tauto.
Qed.

Lemma has_edge_get_edge (g : DiGraph) (u v : string) :
  has_edge g u v = is_some (get_edge g u v).
Proof.
  unfold get_edge. destruct (has_edge g u v) eqn:H.
  - apply has_edge_In in H. destruct (find_edge_some _ _ H) as [e ->]. reflexivity.
  - rewrite find_edge_none; [reflexivity |].
    intros I. apply has_edge_In in I. congruence.
Qed.

Lemma get_edge_set_edge (l : list (edge_key * EdgeAttrs)) (k k' : edge_key)
    (a : EdgeAttrs) :
  option_map snd (find (fun x => key_eqb k' (fst x)) (set_edge l k a))
  = if key_eqb k' k then Some a
    else option_map snd (find (fun x => key_eqb k' (fst x)) l).
Proof.
  induction l as [| [k0 b] l IH]; simpl.
  - destruct (key_eqb k' k); reflexivity.
  - destruct (key_eqb k k0) eqn:K; simpl.
    + apply key_eqb_eq in K. subst k0.
      destruct (key_eqb k' k); reflexivity.
    + destruct (key_eqb k' k0) eqn:K'; simpl.
      * apply key_eqb_eq in K'. subst k0.
        destruct (key_eqb k' k) eqn:K2; [| reflexivity].
        apply key_eqb_eq in K2. subst. rewrite key_eqb_refl in K. discriminate.
      * exact IH.
Qed.

Lemma set_edge_keys (l : list (edge_key * EdgeAttrs)) (k : edge_key) (a : EdgeAttrs) :
  map fst (set_edge l k a)
  = if existsb (key_eqb k) (map fst l) then map fst l else (map fst l ++ [k])%list.
Proof.
  induction l as [| [k0 b] l IH]; simpl; [reflexivity |].
  destruct (key_eqb k k0) eqn:K; simpl; [reflexivity |].
  rewrite IH. destruct (existsb (key_eqb k) (map fst l)); reflexivity.
Qed.

Lemma set_edge_NoDup (l : list (edge_key * EdgeAttrs)) (k : edge_key) (a : EdgeAttrs) :
  NoDup (map fst l) -> NoDup (map fst (set_edge l k a)).
Proof.
  intros H. rewrite set_edge_keys.
  destruct (existsb (key_eqb k) (map fst l)) eqn:E; [exact H |].
  apply NoDup_rev in H. rewrite <- (rev_involutive (map fst l ++ [k])).
  apply NoDup_rev. rewrite rev_app_distr. simpl. constructor; [| exact H].
  rewrite <- in_rev. intros I.
  assert (T : existsb (key_eqb k) (map fst l) = true).
  { apply existsb_exists. exists k. split; [exact I | apply key_eqb_refl]. }
  congruence.
Qed.

Lemma set_node_keys_incl (l : list (string * NodeAttrs)) (n : string) (a : NodeAttrs) :
  forall m, In m (map fst (set_node l n a)) <-> m = n \/ In m (map fst l).
Proof.
  induction l as [| [k b] l IH]; simpl; intros m.
  - split; [intros [E | []]; left; congruence | intros [E | []]; left; congruence].
  - destruct (String.eqb n k) eqn:K; simpl.
    + apply String.eqb_eq in K. subst. split; [tauto | intros [E | H]; [left; congruence | exact H]].
    + rewrite IH. split; tauto.
Qed.

Lemma set_node_NoDup (l : list (string * NodeAttrs)) (n : string) (a : NodeAttrs) :
  NoDup (map fst l) -> NoDup (map fst (set_node l n a)).
Proof.
  induction l as [| [k b] l IH]; simpl; intros H.
  - constructor; [simpl; tauto | constructor].
  - destruct (String.eqb n k) eqn:K; simpl; [exact H |].
    inversion H; subst. constructor; [| auto].
    rewrite set_node_keys_incl. intros [E | I]; [| tauto].
    subst. rewrite String.eqb_refl in K. discriminate.
Qed.

(* ------------------------------------------------------------------ *)
(** ** The loop over the airports *)

Lemma add_airports_edges (airports : list Airport) (g : DiGraph) :
  edges (fold_left add_airport airports g) = edges g.
Proof.
  revert g. induction airports as [| a l IH]; intros g; simpl; [reflexivity |].
  rewrite IH. reflexivity.
Qed.

Lemma add_airports_keys (airports : list Airport) (g : DiGraph) (n : string) :
  In n (node_keys (fold_left add_airport airports g))
  <-> In n (node_keys g) \/ In n (map iata airports).
Proof.
  revert g. induction airports as [| a l IH]; intros g; simpl; [tauto |].
  rewrite IH. unfold add_airport, add_node, node_keys. simpl.
  rewrite set_node_keys_incl. split.
  - intros [[E | H] | H]; auto.
  - intros [H | [E | H]]; auto.
Qed.

Lemma add_airports_NoDup (airports : list Airport) (g : DiGraph) :
  NoDup (node_keys g) -> NoDup (node_keys (fold_left add_airport airports g)).
Proof.
  revert g. induction airports as [| a l IH]; intros g H; simpl; [exact H |].
  apply IH. unfold add_airport, add_node, node_keys. simpl.
  apply set_node_NoDup. exact H.
Qed.

Lemma valid_iata_In (airports : list Airport) (code : string) :
  valid_iata airports code = true <-> In code (map iata airports).
Proof. apply existsb_eqb_In. Qed.

Lemma valid_iata_row (airports : list Airport) (code : string) :
  valid_iata airports code = true ->
  exists a, airport_row airports code = Some a /\ iata a = code.
Proof.
  rewrite valid_iata_In. unfold airport_row.
  induction airports as [| a l IH]; simpl; [tauto |].
  intros [E | H].
  - rewrite E, String.eqb_refl. eauto.
  - destruct (String.eqb (iata a) code) eqn:K.
    + apply String.eqb_eq in K. eauto.
    + auto.
Qed.

(* ------------------------------------------------------------------ *)
(** ** The loop over the routes *)

Lemma Qlt_bool_iff (a b : Q) : Qlt_bool a b = true <-> a < b.
Proof.
  unfold Qlt_bool. rewrite negb_true_iff. split.
  - intros H. apply Qnot_le_lt. intros L. apply Qle_bool_iff in L. congruence.
  - intros H. destruct (Qle_bool b a) eqn:E; [| reflexivity].
    apply Qle_bool_iff in E. exfalso. exact (Qlt_not_le _ _ H E).
Qed.

Section BuildFacts.

Variable geodesic_km : Q -> Q -> Q -> Q -> Q.
Variable airports : list Airport.

Let step := add_route geodesic_km airports.

Lemma add_route_nodes (g : DiGraph) (r : Route) : nodes (step g r) = nodes g.
Proof.
  unfold step, add_route.
  destruct (negb _ || negb _); [reflexivity |].
  destruct (airport_row airports (source_airport r)); [| reflexivity].
  destruct (airport_row airports (destination_airport r)); [| reflexivity].
  destruct (get_edge g _ _); [| reflexivity].
  destruct (Qlt_bool _ _); reflexivity.
Qed.

Lemma add_route_NoDup (g : DiGraph) (r : Route) :
  NoDup (edge_keys g) -> NoDup (edge_keys (step g r)).
Proof.
  intros H. unfold step, add_route.
  destruct (negb _ || negb _); [exact H |].
  destruct (airport_row airports (source_airport r)); [| exact H].
  destruct (airport_row airports (destination_airport r)); [| exact H].
  destruct (get_edge g _ _).
  - destruct (Qlt_bool _ _); [| exact H].
    apply set_edge_NoDup. exact H.
  - apply set_edge_NoDup. exact H.
Qed.

(** What one iteration does to the edge of the ordered pair [(s, d)]. *)
Lemma add_route_get_edge (g : DiGraph) (r : Route) (s d : string) :
  get_edge (step g r) s d
  = match candidate geodesic_km airports s d r with
    | Some e =>
        match get_edge g s d with
        | Some existing =>
            Some (if Qlt_bool (monetary_cost e) (monetary_cost existing)
                  then e else existing)
        | None => Some e
        end
    | None => get_edge g s d
    end.
Proof.
  unfold step, add_route, candidate.
  destruct (String.eqb (source_airport r) s) eqn:Es;
    [apply String.eqb_eq in Es; subst s |].
  - destruct (String.eqb (destination_airport r) d) eqn:Ed;
      [apply String.eqb_eq in Ed; subst d |].
    + simpl.
      destruct (valid_iata airports (source_airport r)) eqn:Vs; simpl;
        [| reflexivity].
      destruct (valid_iata airports (destination_airport r)) eqn:Vd; simpl;
        [| reflexivity].
      destruct (airport_row airports (source_airport r)) as [sa |]; [| reflexivity].
      destruct (airport_row airports (destination_airport r)) as [da |];
        [| reflexivity].
      destruct (get_edge g (source_airport r) (destination_airport r)) as [ex |] eqn:G.
      * destruct (Qlt_bool _ _); [| exact G].
        unfold get_edge, update_edge. simpl.
        rewrite get_edge_set_edge, key_eqb_refl. reflexivity.
      * unfold get_edge, add_edge. simpl.
        rewrite get_edge_set_edge, key_eqb_refl. reflexivity.
    + simpl.
      assert (K : key_eqb (source_airport r, d)
                          (source_airport r, destination_airport r) = false).
      { apply key_eqb_neq. intros E. inversion E as [E']. rewrite E' in Ed.
        rewrite String.eqb_refl in Ed. discriminate. }
      destruct (negb _ || negb _); [reflexivity |].
      destruct (airport_row airports (source_airport r)); [| reflexivity].
      destruct (airport_row airports (destination_airport r)); [| reflexivity].
      destruct (get_edge g (source_airport r) (destination_airport r)).
      * destruct (Qlt_bool _ _); [| reflexivity].
        unfold get_edge, update_edge. simpl. rewrite get_edge_set_edge, K. reflexivity.
      * unfold get_edge, add_edge. simpl. rewrite get_edge_set_edge, K. reflexivity.
  - simpl.
    assert (K : key_eqb (s, d) (source_airport r, destination_airport r) = false).
    { apply key_eqb_neq. intros E. inversion E as [[E1 E2]]. rewrite E1 in Es.
      rewrite String.eqb_refl in Es. discriminate. }
    destruct (negb _ || negb _); [reflexivity |].
    destruct (airport_row airports (source_airport r)); [| reflexivity].
    destruct (airport_row airports (destination_airport r)); [| reflexivity].
    destruct (get_edge g (source_airport r) (destination_airport r)).
    + destruct (Qlt_bool _ _); [| reflexivity].
      unfold get_edge, update_edge. simpl. rewrite get_edge_set_edge, K. reflexivity.
    + unfold get_edge, add_edge. simpl. rewrite get_edge_set_edge, K. reflexivity.
Qed.

Lemma routes_loop_nodes (routes : list Route) (g : DiGraph) :
  nodes (fold_left step routes g) = nodes g.
Proof.
  revert g. induction routes as [| r l IH]; intros g; simpl; [reflexivity |].
  rewrite IH. apply add_route_nodes.
Qed.

Lemma routes_loop_NoDup (routes : list Route) (g : DiGraph) :
  NoDup (edge_keys g) -> NoDup (edge_keys (fold_left step routes g)).
Proof.
  revert g. induction routes as [| r l IH]; intros g H; simpl; [exact H |].
  apply IH. apply add_route_NoDup. exact H.
Qed.

Lemma routes_loop_get_edge (routes : list Route) (g : DiGraph) (s d : string) :
  get_edge (fold_left step routes g) s d
  = match get_edge g s d with
    | Some e => Some (keep_lowest e (candidates geodesic_km airports routes s d))
    | None => dedup_min_cost (candidates geodesic_km airports routes s d)
    end.
Proof.
  revert g. unfold candidates.
  induction routes as [| r l IH]; intros g; simpl.
  - destruct (get_edge g s d); reflexivity.
  - rewrite IH, add_route_get_edge.
    destruct (candidate geodesic_km airports s d r) as [e |]; simpl.
    + destruct (get_edge g s d); reflexivity.
    + reflexivity.
Qed.

Lemma candidate_valid (s d : string) (r : Route) (e : EdgeAttrs) :
  candidate geodesic_km airports s d r = Some e ->
  valid_iata airports s = true /\ valid_iata airports d = true.
Proof.
  unfold candidate.
  destruct (valid_iata airports s), (valid_iata airports d);
    rewrite ?andb_false_r; simpl; try discriminate.
  tauto.
Qed.

Lemma candidate_inv (s d : string) (r : Route) (e : EdgeAttrs) :
  candidate geodesic_km airports s d r = Some e ->
  source_airport r = s /\ destination_airport r = d
  /\ valid_iata airports s = true /\ valid_iata airports d = true
  /\ exists sa da,
       airport_row airports s = Some sa /\ airport_row airports d = Some da
       /\ e = route_edge geodesic_km sa da r.
Proof.
  unfold candidate.
  destruct (String.eqb (source_airport r) s) eqn:Es; simpl; [| discriminate].
  destruct (String.eqb (destination_airport r) d) eqn:Ed; simpl; [| discriminate].
  apply String.eqb_eq in Es, Ed.
  destruct (valid_iata airports s); simpl; [| discriminate].
  destruct (valid_iata airports d); simpl; [| discriminate].
  destruct (airport_row airports s) as [sa |]; [| discriminate].
  destruct (airport_row airports d) as [da |]; [| discriminate].
  intros C. inversion C. repeat split; auto. exists sa, da. auto.
Qed.

Lemma candidates_valid (routes : list Route) (s d : string) :
  candidates geodesic_km airports routes s d <> [] ->
  valid_iata airports s = true /\ valid_iata airports d = true.
Proof.
  unfold candidates. induction routes as [| r l IH]; simpl; [congruence |].
  destruct (candidate geodesic_km airports s d r) eqn:C.
  - intros _. exact (candidate_valid _ _ _ _ C).
  - exact IH.
Qed.

End BuildFacts.

Lemma build_graph_node_keys geodesic_km airports routes (n : string) :
  In n (node_keys (_build_graph geodesic_km airports routes))
  <-> In n (map iata airports).
Proof.
  unfold _build_graph, node_keys. rewrite routes_loop_nodes.
  fold (node_keys (fold_left add_airport airports empty_graph)).
  rewrite add_airports_keys. simpl. tauto.
Qed.

Lemma build_graph_nodes_NoDup geodesic_km airports routes :
  NoDup (node_keys (_build_graph geodesic_km airports routes)).
Proof.
  unfold _build_graph, node_keys. rewrite routes_loop_nodes.
  apply add_airports_NoDup. constructor.
Qed.

Lemma build_graph_edges_NoDup geodesic_km airports routes :
  NoDup (edge_keys (_build_graph geodesic_km airports routes)).
Proof.
  unfold _build_graph. apply routes_loop_NoDup.
  unfold edge_keys. rewrite add_airports_edges. constructor.
Qed.

Lemma build_graph_get_edge geodesic_km airports routes (s d : string) :
  get_edge (_build_graph geodesic_km airports routes) s d
  = dedup_min_cost (candidates geodesic_km airports routes s d).
Proof.
  unfold _build_graph. rewrite routes_loop_get_edge.
  unfold get_edge at 1. rewrite add_airports_edges. reflexivity.
Qed.

Lemma build_graph_endpoints geodesic_km airports routes (s d : string) :
  has_edge (_build_graph geodesic_km airports routes) s d = true ->
  has_node (_build_graph geodesic_km airports routes) s = true
  /\ has_node (_build_graph geodesic_km airports routes) d = true.
Proof.
  rewrite has_edge_get_edge, build_graph_get_edge. intros H.
  assert (N : candidates geodesic_km airports routes s d <> []).
  { intros E. rewrite E in H. discriminate. }
  destruct (candidates_valid _ _ _ _ _ N) as [Vs Vd].
  rewrite !has_node_In, !build_graph_node_keys, <- !valid_iata_In. tauto.
Qed.

(** C1.  The built network has at most one edge per ordered pair of
    airports, both of them nodes; the edge of a pair is the one the
    deduplication rule keeps among the input routes of that pair whose
    endpoints are airports of the input: a route seen later replaces the
    kept edge, with all four attributes, exactly when its monetary cost is
    strictly lower, and leaves the network as it is otherwise (a tie
    included). *)
Theorem build_graph_keeps_lowest_cost_edge :
  forall (geodesic_km : Q -> Q -> Q -> Q -> Q)
         (airports : list Airport) (routes : list Route),
    let g := _build_graph geodesic_km airports routes in
    NoDup (edge_keys g)
    /\ (forall s d, has_edge g s d = true ->
                    has_node g s = true /\ has_node g d = true)
    /\ (forall s d,
          get_edge g s d
          = dedup_min_cost (candidates geodesic_km airports routes s d))
    /\ (forall g0 r s d e existing,
          candidate geodesic_km airports s d r = Some e ->
          get_edge g0 s d = Some existing ->
          (monetary_cost e < monetary_cost existing ->
           get_edge (add_route geodesic_km airports g0 r) s d = Some e)
          /\ (~ monetary_cost e < monetary_cost existing ->
              add_route geodesic_km airports g0 r = g0)).
Proof.
  intros geodesic_km airports routes g. subst g.
  split; [apply build_graph_edges_NoDup |].
  split; [apply build_graph_endpoints |].
  split; [apply build_graph_get_edge |].
  intros g0 r s d e existing C G. split.
  - intros L. rewrite add_route_get_edge, C, G.
    apply Qlt_bool_iff in L. rewrite L. reflexivity.
  - intros NL.
    assert (F : Qlt_bool (monetary_cost e) (monetary_cost existing) = false).
    { destruct (Qlt_bool _ _) eqn:B; [| reflexivity].
      apply Qlt_bool_iff in B. tauto. }
    destruct (candidate_inv _ _ _ _ _ _ C)
      as (Es & Ed & Vs & Vd & sa & da & Rs & Rd & Ee).
    subst s d e. unfold add_route.
    rewrite Vs, Vd, Rs, Rd. cbv zeta. simpl negb. simpl orb. cbv iota.
    rewrite G, F. reflexivity.
Qed.

(* ------------------------------------------------------------------ *)
(** ** Further facts about the built network *)

Lemma Qlt_bool_irrefl (a b : Q) : a = b -> Qlt_bool a b = false.
Proof.
  intros ->. destruct (Qlt_bool b b) eqn:E; [| reflexivity].
  apply Qlt_bool_iff in E. exfalso. exact (Qlt_irrefl _ E).
Qed.

Lemma keep_lowest_same_cost (kept : EdgeAttrs) (cands : list EdgeAttrs) :
  (forall c, In c cands -> monetary_cost c = monetary_cost kept) ->
  keep_lowest kept cands = kept.
Proof.
  induction cands as [| c rest IH]; intros H; simpl; [reflexivity |].
  rewrite (Qlt_bool_irrefl _ _ (H c (or_introl eq_refl))).
  apply IH. intros x Hx. apply H. right. exact Hx.
Qed.

Lemma candidates_same_cost geodesic_km airports routes (s d : string)
    (e e' : EdgeAttrs) :
  In e (candidates geodesic_km airports routes s d) ->
  In e' (candidates geodesic_km airports routes s d) ->
  monetary_cost e = monetary_cost e'.
Proof.
  assert (Inv : forall x, In x (candidates geodesic_km airports routes s d) ->
                  exists r, candidate geodesic_km airports s d r = Some x).
  { unfold candidates. induction routes as [| r l IH]; simpl; [tauto |].
    intros x. destruct (candidate geodesic_km airports s d r) eqn:C.
    - intros [<- | H]; [eauto | auto].
    - auto. }
  intros He He'. destruct (Inv e He) as [r C], (Inv e' He') as [r' C'].
  apply candidate_inv in C, C'.
  destruct C as (_ & _ & _ & _ & sa & da & Rs & Rd & ->).
  destruct C' as (_ & _ & _ & _ & sa' & da' & Rs' & Rd' & ->).
  assert (sa = sa') by congruence. assert (da = da') by congruence.
  subst. reflexivity.
Qed.

(** The routes of one ordered pair all get the distance of the same two
    airports, hence the same cost: the strict comparison never holds while
    a network is built, and the edge kept is that of the first route. *)
Theorem build_graph_first_route_wins :
  forall (geodesic_km : Q -> Q -> Q -> Q -> Q)
         (airports : list Airport) (routes : list Route) (s d : string),
    get_edge (_build_graph geodesic_km airports routes) s d
    = hd_error (candidates geodesic_km airports routes s d).
Proof.
  intros geodesic_km airports routes s d. rewrite build_graph_get_edge.
  pose proof (candidates_same_cost geodesic_km airports routes s d) as Same.
  destruct (candidates geodesic_km airports routes s d) as [| c rest];
    [reflexivity |].
  simpl. f_equal. apply keep_lowest_same_cost.
  intros x Hx. apply Same; simpl; auto.
Qed.

Lemma set_edge_Forall (P : EdgeAttrs -> Prop) (l : list (edge_key * EdgeAttrs))
    (k : edge_key) (a : EdgeAttrs) :
  P a -> Forall (fun x => P (snd x)) l ->
  Forall (fun x => P (snd x)) (set_edge l k a).
Proof.
  intros Pa. induction 1 as [| [k' b] l Pb F IH]; simpl.
  - constructor; [exact Pa | constructor].
  - destruct (key_eqb k k'); constructor; assumption.
Qed.

Lemma route_edge_nonneg geodesic_km (sa da : Airport) (r : Route) :
  (forall a b c d, 0 <= geodesic_km a b c d) ->
  nonneg_edge (route_edge geodesic_km sa da r).
Proof.
  intros H. unfold nonneg_edge, route_edge, _calculate_distance. simpl.
  specialize (H (latitude sa) (longitude sa) (latitude da) (longitude da)).
  repeat split.
  - exact H.
  - apply Qle_shift_div_l; [reflexivity | lra].
  - unfold Config.BASE_COST_PER_KM. lra.
Qed.

Lemma add_route_nonneg geodesic_km airports (g : DiGraph) (r : Route) :
  (forall a b c d, 0 <= geodesic_km a b c d) ->
  Forall (fun x => nonneg_edge (snd x)) (edges g) ->
  Forall (fun x => nonneg_edge (snd x))
         (edges (add_route geodesic_km airports g r)).
Proof.
  intros H F. unfold add_route.
  destruct (negb _ || negb _); [exact F |].
  destruct (airport_row airports (source_airport r)) as [sa |]; [| exact F].
  destruct (airport_row airports (destination_airport r)) as [da |]; [| exact F].
  destruct (get_edge g _ _).
  - destruct (Qlt_bool _ _); [| exact F].
    apply set_edge_Forall; [apply route_edge_nonneg; exact H | exact F].
  - apply set_edge_Forall; [apply route_edge_nonneg; exact H | exact F].
Qed.

(** A network built with a non-negative distance has non-negative weights,
    whichever attribute is chosen. *)
Theorem build_graph_nonneg_weights :
  forall (geodesic_km : Q -> Q -> Q -> Q -> Q)
         (airports : list Airport) (routes : list Route) (w : edge_attr),
    (forall a b c d, 0 <= geodesic_km a b c d) ->
    nonneg_weights (_build_graph geodesic_km airports routes) w = true.
Proof.
  intros geodesic_km airports routes w H.
  assert (F : Forall (fun x => nonneg_edge (snd x))
                (edges (_build_graph geodesic_km airports routes))).
  { unfold _build_graph.
    assert (G : Forall (fun x => nonneg_edge (snd x))
                  (edges (fold_left add_airport airports empty_graph))).
    { rewrite add_airports_edges. constructor. }
    revert G. generalize (fold_left add_airport airports empty_graph).
    induction routes as [| r l IH]; intros g G; simpl; [exact G |].
    apply IH. apply add_route_nonneg; assumption. }
  unfold nonneg_weights. apply forallb_forall. intros x Hx.
  rewrite Forall_forall in F. destruct (F x Hx) as (D & T & C).
  apply Qle_bool_iff. destruct w; assumption.
Qed.

(* ================================================================== *)
(** * Properties of the path metrics *)



Lemma legs_loop_walk (g : DiGraph) (p : list string) :
  is_walk g p = true ->
  forall acc, exists tot,
    legs_loop g p acc = Ok tot
    /\ acc_distance tot == acc_distance acc + legs_total g attr_distance p
    /\ acc_time tot == acc_time acc + legs_total g attr_time_cost p
    /\ acc_cost tot == acc_cost acc + legs_total g attr_monetary_cost p
    /\ acc_segments tot = (acc_segments acc ++ leg_segments g p)%list.
Proof.
  unfold legs_total.
  induction p as [| u p IH]; intros W acc.
  - exists acc. simpl. rewrite app_nil_r. repeat split; try reflexivity; ring.
  - destruct p as [| v p].
    + exists acc. simpl. rewrite app_nil_r. repeat split; try reflexivity; ring.
    + change (has_edge g u v && is_walk g (v :: p) = true) in W.
      apply andb_true_iff in W. destruct W as [E W].
      rewrite has_edge_get_edge in E.
      change (legs_loop g (u :: v :: p) acc)
        with (match get_edge g u v with
              | None => Raise KeyError
              | Some e =>
                  legs_loop g (v :: p)
                    (mkTotals (acc_distance acc + distance e)
                       (acc_time acc + time_cost e)
                       (acc_cost acc + monetary_cost e)
                       (acc_segments acc ++ [leg_segment u v e]))
              end).
      change (leg_segments g (u :: v :: p))
        with (match get_edge g u v with
              | Some e => leg_segment u v e :: leg_segments g (v :: p)
              | None => leg_segments g (v :: p)
              end).
      assert (PW : forall w, path_weight g w (u :: v :: p)
                  = match get_edge g u v with
                    | Some e => edge_weight w e
                    | None => 0
                    end + path_weight g w (v :: p)) by reflexivity.
      rewrite !PW.
      destruct (get_edge g u v) as [e |]; [| discriminate].
      destruct (IH W (mkTotals (acc_distance acc + distance e)
                       (acc_time acc + time_cost e)
                       (acc_cost acc + monetary_cost e)
                       (acc_segments acc ++ [leg_segment u v e])))
        as (tot & L & D & T & C & S).
      exists tot. cbn [acc_distance acc_time acc_cost acc_segments] in D, T, C, S.
      cbn [edge_weight].
      split; [exact L |].
      split; [rewrite D; ring |].
      split; [rewrite T; ring |].
      split; [rewrite C; ring |].
      rewrite S, <- app_assoc. reflexivity.
Qed.




(** The metrics of a walk never raise. *)
Lemma path_metrics_walk (g : DiGraph) (p : list string) :
  is_walk g p = true ->
  exists r, _calculate_path_metrics g p = Ok r /\ path r = p
            /\ stops r = (len p - 2)%Z /\ segments r = leg_segments g p.
Proof.
  intros W. unfold _calculate_path_metrics.
  destruct (legs_loop_walk g p W (mkTotals 0 0 0 [])) as (tot & L & _ & _ & _ & S).
  rewrite L. simpl. eexists. split; [reflexivity |]. simpl. auto.
Qed.


(* ================================================================== *)
(** * The reference implementation meets the interface *)

(** ** Stable sort *)

Section SortBy.

Context {A : Type} (key : A -> Q).

Let le_key (a b : A) : Prop := key a <= key b.

Lemma insert_by_perm (x : A) (l : list A) :
  Permutation (insert_by key x l) (x :: l).
Proof.
  induction l as [| y l IH]; simpl; [reflexivity |].
  destruct (Qle_bool (key x) (key y)); [reflexivity |].
  rewrite IH. apply perm_swap.
Qed.

Lemma sort_by_perm (l : list A) : Permutation (sort_by key l) l.
Proof.
  induction l as [| x l IH]; simpl; [constructor |].
  rewrite insert_by_perm. constructor. exact IH.
Qed.

Lemma insert_by_sorted (x : A) (l : list A) :
  StronglySorted le_key l -> StronglySorted le_key (insert_by key x l).
Proof.
  induction l as [| y l IH]; intros S; simpl.
  - constructor; constructor.
  - destruct (Qle_bool (key x) (key y)) eqn:E.
    + apply Qle_bool_iff in E. constructor; [exact S |].
      constructor; [exact E |].
      inversion S as [| ? ? _ F]; subst.
      eapply Forall_impl; [| exact F].
      intros z Hz. unfold le_key in *. lra.
    + assert (L : key y <= key x).
      { destruct (Qlt_le_dec (key y) (key x)) as [L | L]; [lra |].
        apply Qle_bool_iff in L. congruence. }
      inversion S as [| ? ? S' F]; subst.
      constructor; [apply IH; exact S' |].
      apply (Permutation_Forall (x := x :: l)).
      * symmetry. apply insert_by_perm.
      * constructor; assumption.
Qed.

Lemma sort_by_sorted (l : list A) : StronglySorted le_key (sort_by key l).
Proof.
  induction l as [| x l IH]; simpl; [constructor |].
  apply insert_by_sorted. exact IH.
Qed.

Lemma sort_by_In (l : list A) (x : A) : In x (sort_by key l) <-> In x l.
Proof.
  split; apply Permutation_in; [| symmetry]; apply sort_by_perm.
Qed.

Lemma sort_by_NoDup (l : list A) : NoDup l -> NoDup (sort_by key l).
Proof.
  apply Permutation_NoDup. symmetry. apply sort_by_perm.
Qed.

End SortBy.

(** ** Enumeration of the simple paths *)

Lemma successors_In (g : DiGraph) (u v : string) :
  In v (successors g u) <-> has_edge g u v = true.
Proof.
  unfold successors. rewrite nodup_In, in_map_iff, has_edge_In. split.
  - intros [[a b] [E H]]. simpl in E. subst b.
    apply filter_In in H. destruct H as [H F]. simpl in F.
    apply String.eqb_eq in F. subst a. exact H.
  - intros H. exists (u, v). split; [reflexivity |].
    apply filter_In. split; [exact H | apply String.eqb_refl].
Qed.

Lemma successors_NoDup (g : DiGraph) (u : string) : NoDup (successors g u).
Proof. apply NoDup_nodup. Qed.

Lemma starts_at_inv (s : string) (p : list string) :
  starts_at s p = true -> exists q, p = s :: q.
Proof.
  destruct p as [| x q]; simpl; [discriminate |].
  intros E. apply String.eqb_eq in E. subst. eauto.
Qed.

Lemma ends_at_In (t : string) (p : list string) : ends_at t p = true -> In t p.
Proof.
  induction p as [| x p IH]; [discriminate |].
  destruct p as [| y p].
  - simpl. intros E. apply String.eqb_eq in E. auto.
  - intros E. right. apply IH. exact E.
Qed.

Lemma legs_length (p : list string) : S (List.length (legs p)) = List.length p \/ p = [].
Proof.
  induction p as [| u p IH]; [auto |]. left.
  destruct p as [| v p]; [reflexivity |].
  destruct IH as [IH | IH]; [| discriminate].
  change (legs (u :: v :: p)) with ((u, v) :: legs (v :: p)).
  cbn [List.length] in *. lia.
Qed.

Lemma legs_In_fst (p : list string) (a b : string) : In (a, b) (legs p) -> In a p.
Proof.
  induction p as [| u p IH]; [simpl; tauto |].
  destruct p as [| v p]; [simpl; tauto |].
  change (legs (u :: v :: p)) with ((u, v) :: legs (v :: p)).
  intros [E | H]; [inversion E; left; reflexivity | right; auto].
Qed.

Lemma legs_NoDup (p : list string) : NoDup p -> NoDup (legs p).
Proof.
  induction p as [| u p IH]; intros N; [constructor |].
  destruct p as [| v p]; [constructor |].
  change (legs (u :: v :: p)) with ((u, v) :: legs (v :: p)).
  inversion N; subst. constructor; [| auto].
  intros H. apply legs_In_fst in H. tauto.
Qed.

Lemma legs_walk (g : DiGraph) (p : list string) :
  is_walk g p = true -> incl (legs p) (edge_keys g).
Proof.
  induction p as [| u p IH]; intros W; [intros x []|].
  destruct p as [| v p]; [intros x [] |].
  change (has_edge g u v && is_walk g (v :: p) = true) in W.
  apply andb_true_iff in W. destruct W as [E W].
  change (legs (u :: v :: p)) with ((u, v) :: legs (v :: p)).
  intros x [X | X]; [subst; apply has_edge_In; exact E | apply IH; assumption].
Qed.

(** A simple walk has at most as many legs as the graph has edges. *)
Lemma simple_walk_length (g : DiGraph) (p : list string) :
  is_walk g p = true -> NoDup p -> (List.length p <= S (List.length (edges g)))%nat.
Proof.
  intros W N.
  pose proof (NoDup_incl_length (legs_NoDup p N) (legs_walk g p W)) as L.
  unfold edge_keys in L. rewrite length_map in L.
  destruct (legs_length p) as [E | E]; [lia | subst; simpl; lia].
Qed.

Lemma simple_paths_from_starts (fuel : nat) (g : DiGraph) (t : string)
    (visited : list string) (u : string) (p : list string) :
  In p (simple_paths_from fuel g t visited u) -> starts_at u p = true.
Proof.
  destruct fuel as [| f]; simpl; destruct (String.eqb u t).
  - intros [E | []]. subst. simpl. apply String.eqb_refl.
  - intros [].
  - intros [E | []]. subst. simpl. apply String.eqb_refl.
  - rewrite in_flat_map. intros [v [_ H]].
    destruct (_ || _); [destruct H |].
    apply in_map_iff in H. destruct H as [q [E _]]. subst. simpl.
    apply String.eqb_refl.
Qed.

Lemma not_existsb_eqb (x : string) (l : list string) :
  existsb (String.eqb x) l = false <-> ~ In x l.
Proof.
  rewrite <- existsb_eqb_In. destruct (existsb _ _); split; congruence.
Qed.

Lemma simple_paths_from_sound (g : DiGraph) (t : string) (fuel : nat) :
  forall visited u p,
    ~ In u visited ->
    In p (simple_paths_from fuel g t visited u) ->
    simple_from g t visited u p.
Proof.
  induction fuel as [| f IH]; intros visited u p NV H.
  - simpl in H. destruct (String.eqb u t) eqn:E; [| destruct H].
    destruct H as [<- | []]. apply String.eqb_eq in E. subst.
    repeat split; simpl; try apply String.eqb_refl.
    + constructor; [simpl; tauto | constructor].
    + intros x [<- | []]. exact NV.
  - simpl in H. destruct (String.eqb u t) eqn:E.
    + destruct H as [<- | []]. apply String.eqb_eq in E. subst.
      repeat split; simpl; try apply String.eqb_refl.
      * constructor; [simpl; tauto | constructor].
      * intros x [<- | []]. exact NV.
    + apply in_flat_map in H. destruct H as [v [Hv H]].
      change (String.eqb v u || existsb (String.eqb v) visited)
        with (existsb (String.eqb v) (u :: visited)) in H.
      destruct (existsb (String.eqb v) (u :: visited)) eqn:X; [destruct H |].
      apply not_existsb_eqb in X.
      apply in_map_iff in H. destruct H as [q [<- Hq]].
      destruct (IH _ _ _ X Hq) as (St & En & W & N & D).
      destruct (starts_at_inv _ _ St) as [q' ->].
      apply successors_In in Hv.
      repeat split.
      * simpl. apply String.eqb_refl.
      * exact En.
      * change (has_edge g u v && is_walk g (v :: q') = true).
        rewrite Hv. exact W.
      * constructor; [| exact N]. intros I. apply (D u I). left. reflexivity.
      * intros x [<- | I]; [exact NV |].
        intros V. apply (D x I). right. exact V.
Qed.

Lemma simple_paths_from_complete (g : DiGraph) (t : string) (fuel : nat) :
  forall visited u p,
    simple_from g t visited u p ->
    (List.length p <= S fuel)%nat ->
    In p (simple_paths_from fuel g t visited u).
Proof.
  induction fuel as [| f IH]; intros visited u p (St & En & W & N & D) L;
    destruct (starts_at_inv _ _ St) as [q ->];
    destruct q as [| v q].
  - simpl in En. simpl. rewrite En. left. reflexivity.
  - simpl in L. lia.
  - simpl in En. simpl. rewrite En. left. reflexivity.
  - assert (Ut : String.eqb u t = false).
    { destruct (String.eqb u t) eqn:E; [| reflexivity].
      apply String.eqb_eq in E. subst.
      inversion N; subst. exfalso. apply H1. apply ends_at_In. exact En. }
    change (has_edge g u v && is_walk g (v :: q) = true) in W.
    apply andb_true_iff in W. destruct W as [E W].
    simpl. rewrite Ut. apply in_flat_map. exists v.
    split; [apply successors_In; exact E |].
    change (String.eqb v u || existsb (String.eqb v) visited)
      with (existsb (String.eqb v) (u :: visited)).
    inversion N as [| ? ? Nu Nq]; subst.
    assert (X : existsb (String.eqb v) (u :: visited) = false).
    { apply not_existsb_eqb. intros [<- | I].
      - apply Nu. left. reflexivity.
      - apply (D v); [right; left; reflexivity | exact I]. }
    rewrite X. apply in_map. apply IH.
    + repeat split.
      * simpl. apply String.eqb_refl.
      * exact En.
      * exact W.
      * exact Nq.
      * intros x I [<- | V]; [apply Nu; exact I |].
        apply (D x); [right; exact I | exact V].
    + simpl in L |- *. lia.
Qed.

Lemma NoDup_flat_map {A B : Type} (f : A -> list B) (l : list A) :
  NoDup l ->
  (forall x, In x l -> NoDup (f x)) ->
  (forall x y b, In x l -> In y l -> In b (f x) -> In b (f y) -> x = y) ->
  NoDup (flat_map f l).
Proof.
  induction l as [| a l IH]; intros N F D; simpl; [constructor |].
  inversion N; subst. apply NoDup_app.
  - apply F. left. reflexivity.
  - apply IH; [assumption | intros; apply F; right; assumption |].
    intros x y b Hx Hy. apply D; right; assumption.
  - intros b Ha Hb. apply in_flat_map in Hb. destruct Hb as [y [Hy Hb]].
    assert (a = y) by (apply (D a y b); simpl; auto).
    subst. tauto.
Qed.

Lemma simple_paths_from_NoDup (g : DiGraph) (t : string) (fuel : nat) :
  forall visited u, NoDup (simple_paths_from fuel g t visited u).
Proof.
  induction fuel as [| f IH]; intros visited u; simpl;
    destruct (String.eqb u t);
    try (constructor; [simpl; tauto | constructor]); try constructor.
  apply NoDup_flat_map.
  - apply successors_NoDup.
  - intros v _. destruct (_ || _); [constructor |].
    apply Finite.Injective_map_NoDup; [| apply IH].
    intros a b E. inversion E. reflexivity.
  - intros x y p _ _ Hx Hy.
    destruct (String.eqb x u || existsb (String.eqb x) visited); [destruct Hx |].
    destruct (String.eqb y u || existsb (String.eqb y) visited); [destruct Hy |].
    apply in_map_iff in Hx, Hy.
    destruct Hx as [qx [Ex Hx]], Hy as [qy [Ey Hy]]. subst p.
    inversion Ey; subst qy.
    apply simple_paths_from_starts in Hx, Hy.
    destruct (starts_at_inv _ _ Hx) as [r1 E1].
    destruct (starts_at_inv _ _ Hy) as [r2 E2].
    congruence.
Qed.

Lemma all_simple_paths_spec (g : DiGraph) (s t : string) (p : list string) :
  In p (all_simple_paths g s t) <-> simple_path g s t p.
Proof.
  unfold all_simple_paths, simple_path, is_path. split.
  - intros H. apply simple_paths_from_sound in H; [| simpl; tauto].
    destruct H as (St & En & W & N & _).
    rewrite St, En, W. auto.
  - intros [H N]. apply andb_true_iff in H. destruct H as [H W].
    apply andb_true_iff in H. destruct H as [St En].
    apply simple_paths_from_complete.
    + repeat split; auto.
    + apply simple_walk_length; assumption.
Qed.

Lemma all_simple_paths_same (g : DiGraph) (s : string) :
  all_simple_paths g s s = [[s]].
Proof.
  unfold all_simple_paths. destruct (List.length (edges g)); simpl;
    rewrite String.eqb_refl; reflexivity.
Qed.

Lemma ref_simple_paths_In (g : DiGraph) (s t : string) (w : edge_attr)
    (p : list string) :
  In p (ref_shortest_simple_paths g s t w) <-> simple_path g s t p.
Proof.
  unfold ref_shortest_simple_paths. rewrite sort_by_In.
  apply all_simple_paths_spec.
Qed.

Lemma ref_shortest_path_Ok (g : DiGraph) (s t : string) (w : edge_attr)
    (p : list string) :
  ref_shortest_path g s t w = Ok p ->
  exists rest, ref_shortest_simple_paths g s t w = p :: rest.
Proof.
  unfold ref_shortest_path.
  destruct (negb _ || negb _); [discriminate |].
  destruct (ref_shortest_simple_paths g s t w) as [| q rest]; [discriminate |].
  intros E. inversion E. eauto.
Qed.

Lemma ref_shortest_path_unknown (g : DiGraph) (s t : string) (w : edge_attr) :
  has_node g s = false \/ has_node g t = false ->
  ref_shortest_path g s t w = Raise NodeNotFound.
Proof.
  intros H. unfold ref_shortest_path.
  destruct H as [-> | ->]; simpl; [reflexivity |].
  rewrite orb_true_r. reflexivity.
Qed.

Lemma ref_shortest_path_outcome (g : DiGraph) (s t : string) (w : edge_attr) :
  has_node g s = true -> has_node g t = true ->
  (exists p, ref_shortest_path g s t w = Ok p)
  \/ ref_shortest_path g s t w = Raise NetworkXNoPath.
Proof.
  intros Hs Ht. unfold ref_shortest_path. rewrite Hs, Ht. simpl.
  destruct (ref_shortest_simple_paths g s t w); eauto.
Qed.

Lemma ref_shortest_path_same (g : DiGraph) (s : string) (w : edge_attr) :
  has_node g s = true -> ref_shortest_path g s s w = Ok [s].
Proof.
  intros Hs. unfold ref_shortest_path, ref_shortest_simple_paths.
  rewrite Hs, all_simple_paths_same. reflexivity.
Qed.

Lemma ref_shortest_path_is_path (g : DiGraph) (s t : string) (w : edge_attr)
    (p : list string) :
  ref_shortest_path g s t w = Ok p -> is_path g s t p.
Proof.
  intros H. destruct (ref_shortest_path_Ok _ _ _ _ _ H) as [rest E].
  apply (ref_simple_paths_In g s t w p). rewrite E. left. reflexivity.
Qed.

Lemma ref_shortest_path_none (g : DiGraph) (s t : string) (w : edge_attr) :
  ref_shortest_path g s t w = Raise NetworkXNoPath ->
  forall p, ~ simple_path g s t p.
Proof.
  intros H p P. apply (ref_simple_paths_In g s t w) in P.
  revert H P. unfold ref_shortest_path.
  destruct (negb _ || negb _); [discriminate |].
  destruct (ref_shortest_simple_paths g s t w); [simpl; tauto | discriminate].
Qed.

Lemma ref_shortest_path_optimal (g : DiGraph) (s t : string) (w : edge_attr)
    (p : list string) :
  nonneg_weights g w = true ->
  ref_shortest_path g s t w = Ok p ->
  forall q, simple_path g s t q -> path_weight g w p <= path_weight g w q.
Proof.
  intros _ H q Q. destruct (ref_shortest_path_Ok _ _ _ _ _ H) as [rest E].
  apply (ref_simple_paths_In g s t w) in Q.
  pose proof (sort_by_sorted (path_weight g w) (all_simple_paths g s t)) as S.
  fold (ref_shortest_simple_paths g s t w) in S. rewrite E in S, Q.
  inversion S as [| ? ? _ F]; subst.
  destruct Q as [<- | Q]; [apply Qle_refl |].
  rewrite Forall_forall in F. apply F. exact Q.
Qed.

#[export] Instance reference_networkx : NetworkX := {|
  nx_shortest_path := ref_shortest_path;
  nx_shortest_simple_paths := ref_shortest_simple_paths;
  shortest_path_unknown := ref_shortest_path_unknown;
  shortest_path_outcome := ref_shortest_path_outcome;
  shortest_path_same := ref_shortest_path_same;
  shortest_path_is_path := ref_shortest_path_is_path;
  shortest_path_none := ref_shortest_path_none;
  shortest_path_optimal := ref_shortest_path_optimal;
  simple_paths_nodup := fun g s t w _ _ _ =>
    sort_by_NoDup (path_weight g w) _
      (simple_paths_from_NoDup g t _ [] s);
  simple_paths_complete := fun g s t w p _ _ _ => ref_simple_paths_In g s t w p;
  simple_paths_sorted := fun g s t w _ _ _ =>
    sort_by_sorted (path_weight g w) (all_simple_paths g s t)
|}.

(* ================================================================== *)
(** * Properties of the searches *)

Lemma is_path_walk (g : DiGraph) (s t : string) (p : list string) :
  is_path g s t p -> is_walk g p = true.
Proof.
  unfold is_path. intros H. apply andb_true_iff in H. tauto.
Qed.

Lemma weight_map_get_other (c : string) :
  c <> "time" -> c <> "distance" -> c <> "cost" ->
  weight_map_get c = attr_time_cost.
Proof.
  intros T D C. unfold weight_map_get.
  apply String.eqb_neq in T, D, C. rewrite T, D, C. reflexivity.
Qed.

Section SearchFacts.

Context {nx : NetworkX}.

(** The outcome of the stop-limited search, by the outcome of the
    unconstrained one. *)
Lemma find_shortest_path_Ok (g : DiGraph) (s t c : string) (m : option Z)
    (p : list string) :
  has_node g s = true -> has_node g t = true ->
  nx_shortest_path g s t (weight_map_get c) = Ok p ->
  find_shortest_path g s t c m
  = match m with
    | Some k =>
        if (stop_count p >? k)%Z then Ok None
        else r <- _calculate_path_metrics g p ;; Ok (Some r)
    | None => r <- _calculate_path_metrics g p ;; Ok (Some r)
    end.
Proof.
  intros Hs Ht E. unfold find_shortest_path. rewrite Hs, Ht, E. reflexivity.
Qed.

Lemma find_shortest_path_NoPath (g : DiGraph) (s t c : string) (m : option Z) :
  has_node g s = true -> has_node g t = true ->
  nx_shortest_path g s t (weight_map_get c) = Raise NetworkXNoPath ->
  find_shortest_path g s t c m = Ok None.
Proof.
  intros Hs Ht E. unfold find_shortest_path. rewrite Hs, Ht, E. reflexivity.
Qed.

(** On the example network every shortest path from AAA to DDD has two
    stops, whatever implementation of the interface finds it. *)
Lemma example_shortest_two_stops (p : list string) :
  nx_shortest_path example_network "AAA" "DDD" attr_time_cost = Ok p ->
  (stop_count p > 1)%Z.
Proof.
  intros E.
  pose proof (shortest_path_is_path _ _ _ _ _ E) as P.
  assert (O : path_weight example_network attr_time_cost p
              <= path_weight example_network attr_time_cost
                   ["AAA"; "BBB"; "CCC"; "DDD"]).
  { apply (shortest_path_optimal example_network "AAA" "DDD" attr_time_cost p
             eq_refl E). split.
    - reflexivity.
    - repeat constructor; simpl; intuition discriminate. }
  unfold is_path in P. apply andb_true_iff in P. destruct P as [P W].
  apply andb_true_iff in P. destruct P as [St En].
  destruct p as [| a [| b [| c [| d r]]]].
  - discriminate.
  - simpl in St, En. apply String.eqb_eq in St, En. congruence.
  - simpl in St, En. apply String.eqb_eq in St, En. subst a b.
    vm_compute in W. discriminate.
  - simpl in St, En. apply String.eqb_eq in St, En. subst a c.
    change (has_edge example_network "AAA" b
            && (has_edge example_network b "DDD" && true) = true) in W.
    apply andb_true_iff in W. destruct W as [W1 W2].
    apply has_edge_In in W1. vm_compute in W1.
    destruct W1 as [W1 | [W1 | [W1 | [W1 | [W1 | []]]]]];
      inversion W1; subst b.
    + vm_compute in W2. discriminate.
    + vm_compute in O. exfalso. apply O. reflexivity.
  - unfold stop_count, len. cbn [List.length]. lia.
Qed.

(** C2.  For source and target known to the network, the stop-limited
    search returns absent exactly when the unconstrained search finds no
    path or the path it finds has more than [max_stops] stops; when that
    path is within the bound, the result is the metrics of that very path.
    The search looks at no other path: there is a network, with a path
    within the bound between two of its airports, on which it returns
    absent. *)
Theorem stop_limit_checks_only_the_shortest_path :
  (forall g s t c m,
      has_node g s = true -> has_node g t = true ->
      (find_shortest_path g s t c (Some m) = Ok None
       <-> nx_shortest_path g s t (weight_map_get c) = Raise NetworkXNoPath
           \/ exists p, nx_shortest_path g s t (weight_map_get c) = Ok p
                        /\ (stop_count p > m)%Z))
  /\ (forall g s t c m p,
        has_node g s = true -> has_node g t = true ->
        nx_shortest_path g s t (weight_map_get c) = Ok p ->
        (stop_count p <= m)%Z ->
        exists r, find_shortest_path g s t c (Some m) = Ok (Some r)
                  /\ _calculate_path_metrics g p = Ok r)
  /\ (exists g s t c m q,
        has_node g s = true /\ has_node g t = true
        /\ is_path g s t q /\ (stop_count q <= m)%Z
        /\ find_shortest_path g s t c (Some m) = Ok None).
Proof.
  assert (Within : forall g s t c m p,
             has_node g s = true -> has_node g t = true ->
             nx_shortest_path g s t (weight_map_get c) = Ok p ->
             (stop_count p <= m)%Z ->
             exists r, find_shortest_path g s t c (Some m) = Ok (Some r)
                       /\ _calculate_path_metrics g p = Ok r).
  { intros g s t c m p Hs Ht E L.
    rewrite (find_shortest_path_Ok g s t c (Some m) p Hs Ht E).
    destruct (Z.gtb_spec (stop_count p) m) as [G | _]; [lia |].
    pose proof (is_path_walk _ _ _ _ (shortest_path_is_path _ _ _ _ _ E)) as W.
    destruct (path_metrics_walk g p W) as (r & R & _).
    exists r. rewrite R. split; reflexivity. }
  split; [| split; [exact Within |]].
  - intros g s t c m Hs Ht. split.
    + intros F.
      destruct (shortest_path_outcome g s t (weight_map_get c) Hs Ht)
        as [[p E] | E]; [| left; exact E].
      right. exists p. split; [exact E |].
      destruct (Z_gt_le_dec (stop_count p) m) as [G | L]; [exact G |].
      destruct (Within g s t c m p Hs Ht E L) as (r & R & _).
      rewrite R in F. discriminate.
    + intros [E | [p [E G]]].
      * apply find_shortest_path_NoPath; assumption.
      * rewrite (find_shortest_path_Ok g s t c (Some m) p Hs Ht E).
        destruct (Z.gtb_spec (stop_count p) m) as [_ | L]; [reflexivity | lia].
  - exists example_network, "AAA", "DDD", "time", 1%Z, ["AAA"; "EEE"; "DDD"].
    split; [reflexivity |]. split; [reflexivity |].
    split; [reflexivity |]. split; [vm_compute; discriminate |].
    destruct (shortest_path_outcome example_network "AAA" "DDD"
                (weight_map_get "time") eq_refl eq_refl) as [[p E] | E].
    + rewrite (find_shortest_path_Ok example_network "AAA" "DDD" "time"
                 (Some 1%Z) p eq_refl eq_refl E).
      pose proof (example_shortest_two_stops p E) as G.
      destruct (Z.gtb_spec (stop_count p) 1) as [_ | L]; [reflexivity | lia].
    + exfalso.
      apply (shortest_path_none example_network "AAA" "DDD" _ E
               ["AAA"; "EEE"; "DDD"]). split.
      * reflexivity.
      * repeat constructor; simpl; intuition discriminate.
Qed.

(** C7.  A weight selector that is none of 'time', 'distance' and 'cost'
    makes both searches do exactly what they do with 'time': they minimise
    the time cost, and the selector causes neither a failure nor an absent
    result of its own. *)
Theorem unknown_selector_defaults_to_time :
  forall (g : DiGraph) (s t c : string) (max_stops : option Z) (k : Z),
    c <> "time" -> c <> "distance" -> c <> "cost" ->
    weight_map_get c = attr_time_cost
    /\ find_shortest_path g s t c max_stops
       = find_shortest_path g s t "time" max_stops
    /\ find_k_shortest_paths g s t k c
       = find_k_shortest_paths g s t k "time".
Proof.
  intros g s t c m k T D C.
  pose proof (weight_map_get_other c T D C) as W.
  split; [exact W |].
  unfold find_shortest_path, find_k_shortest_paths. rewrite W.
  split; reflexivity.
Qed.

(** C10.  Asked for a route from an airport of the network to itself, with
    any weight selector and no stop limit or a limit of 0 or more, the
    search does not return absent: it returns the one-node path, with no
    segment, every total 0 and stops = -1, a path of fewer than two
    nodes. *)
Theorem same_airport_route_is_degenerate :
  forall (g : DiGraph) (a c : string) (max_stops : option Z),
    has_node g a = true ->
    (forall m, max_stops = Some m -> (0 <= m)%Z) ->
    exists r,
      find_shortest_path g a a c max_stops = Ok (Some r)
      /\ path r = [a]
      /\ segments r = []
      /\ stops r = (-1)%Z
      /\ total_distance r = 0
      /\ total_flight_time r = 0
      /\ total_transfer_time r = 0
      /\ total_time r = 0
      /\ total_cost r = 0
      /\ (List.length (path r) < 2)%nat.
Proof.
  intros g a c m Ha Hm.
  pose proof (shortest_path_same g a (weight_map_get c) Ha) as E.
  rewrite (find_shortest_path_Ok g a a c m [a] Ha Ha E).
  exists (mkPathResult [a] [] (-1) 0 0 0 0 0).
  assert (M : _calculate_path_metrics g [a]
              = Ok (mkPathResult [a] [] (-1) 0 0 0 0 0)) by reflexivity.
  split.
  - destruct m as [k |]; rewrite M; [| reflexivity].
    specialize (Hm k eq_refl).
    destruct (Z.gtb_spec (stop_count [a]) k) as [G | _]; [| reflexivity].
    unfold stop_count, len in G. simpl in G. lia.
  - simpl. repeat split; try reflexivity. lia.
Qed.

(** Below -1 the stop limit rejects even the one-node path. *)
Theorem same_airport_negative_limit :
  forall (g : DiGraph) (a c : string) (m : Z),
    has_node g a = true -> (m < -1)%Z ->
    find_shortest_path g a a c (Some m) = Ok None.
Proof.
  intros g a c m Ha Hm.
  pose proof (shortest_path_same g a (weight_map_get c) Ha) as E.
  rewrite (find_shortest_path_Ok g a a c (Some m) [a] Ha Ha E).
  destruct (Z.gtb_spec (stop_count [a]) m) as [_ | L]; [reflexivity |].
  unfold stop_count, len in L. simpl in L. lia.
Qed.

End SearchFacts.

(* ------------------------------------------------------------------ *)
(** ** The k-shortest enumeration *)

Lemma StronglySorted_filter {A : Type} (R : A -> A -> Prop) (f : A -> bool)
    (l : list A) :
  StronglySorted R l -> StronglySorted R (filter f l).
Proof.
  induction 1 as [| a l S IH F]; simpl; [constructor |].
  destruct (f a); [| exact IH].
  constructor; [exact IH |].
  rewrite Forall_forall in *. intros x Hx. apply filter_In in Hx. apply F. tauto.
Qed.

Lemma StronglySorted_firstn {A : Type} (R : A -> A -> Prop) (n : nat)
    (l : list A) :
  StronglySorted R l -> StronglySorted R (firstn n l).
Proof.
  intros S. revert n. induction S as [| a l S IH F]; intros [| n]; simpl;
    try constructor.
  - apply IH.
  - rewrite Forall_forall in *. intros x Hx. apply F.
    rewrite <- (firstn_skipn n l). apply in_or_app. left. exact Hx.
Qed.

Lemma StronglySorted_map {A B : Type} (R : B -> B -> Prop) (f : A -> B)
    (l : list A) :
  StronglySorted R (map f l) -> StronglySorted (fun a b => R (f a) (f b)) l.
Proof.
  induction l as [| a l IH]; simpl; intros S; [constructor |].
  inversion S as [| ? ? S' F]; subst. constructor; [auto |].
  rewrite Forall_forall in *. intros x Hx. apply F. apply in_map. exact Hx.
Qed.

Lemma NoDup_firstn {A : Type} (n : nat) (l : list A) :
  NoDup l -> NoDup (firstn n l).
Proof.
  intros N. rewrite <- (firstn_skipn n l) in N.
  exact (NoDup_app_remove_r _ _ N).
Qed.

Lemma In_firstn {A : Type} (n : nat) (l : list A) (x : A) :
  In x (firstn n l) -> In x l.
Proof.
  intros H. rewrite <- (firstn_skipn n l). apply in_or_app. left. exact H.
Qed.

Lemma within_max_stops_gtb (p : list string) :
  (len p - 2 >? Config.MAX_STOPS)%Z = negb (within_max_stops p).
Proof.
  unfold within_max_stops, stop_count.
  rewrite Z.gtb_ltb, Z.ltb_antisym. reflexivity.
Qed.

Lemma len_app_one {A : Type} (l : list A) (x : A) :
  len (l ++ [x]) = (len l + 1)%Z.
Proof. unfold len. rewrite length_app. simpl. lia. Qed.

(** The loop appends to [paths] the metrics of the first [k - len(paths)]
    paths of the generator that are within [MAX_STOPS]. *)
Lemma k_paths_loop_spec (g : DiGraph) (k : Z) (gen : list (list string)) :
  (forall p, In p gen -> is_walk g p = true) ->
  forall paths,
    (len paths < k)%Z ->
    exists new,
      k_paths_loop g k gen paths = Ok (paths ++ new)%list
      /\ paths_of new
         = firstn (Z.to_nat (k - len paths)) (filter within_max_stops gen)
      /\ (forall r, In r new -> _calculate_path_metrics g (path r) = Ok r).
Proof.
  induction gen as [| p rest IH]; intros W paths L.
  - exists []. simpl. rewrite app_nil_r, firstn_nil.
    split; [reflexivity |]. split; [reflexivity |]. intros r [].
  - cbn [k_paths_loop filter]. rewrite within_max_stops_gtb.
    destruct (within_max_stops p) eqn:V; cbn [negb].
    + destruct (path_metrics_walk g p (W p (or_introl eq_refl)))
        as (r & R & Pr & _).
      rewrite R. cbn [bind]. rewrite len_app_one.
      destruct (Z.geb_spec (len paths + 1) k) as [G | G].
      * exists [r]. split; [reflexivity |]. split.
        -- replace (Z.to_nat (k - len paths)) with 1%nat by lia.
           simpl. rewrite Pr. reflexivity.
        -- intros x [<- | []]. rewrite Pr. exact R.
      * destruct (IH (fun q Hq => W q (or_intror Hq)) (paths ++ [r])%list)
          as (new & E & P & M).
        { rewrite len_app_one. lia. }
        exists (r :: new). split; [| split].
        -- rewrite E, <- app_assoc. reflexivity.
        -- rewrite len_app_one in P.
           replace (Z.to_nat (k - len paths))
             with (S (Z.to_nat (k - (len paths + 1)))) by lia.
           simpl. rewrite Pr, P. reflexivity.
        -- intros x [<- | Hx]; [rewrite Pr; exact R | apply M; exact Hx].
    + apply IH; [| exact L]. intros q Hq. apply W. right. exact Hq.
Qed.

Section KSearchFacts.

Context {nx : NetworkX}.

(** C5.  For source and target known to the network, non-negative weights
    and [k >= 1], the k-shortest enumeration returns (it does not fail) at
    most [k] results, in non-decreasing order of total weight, with no
    node sequence twice; each is the metrics of a simple path from source to
    target of at most [MAX_STOPS] stops.  The sequences returned are the
    first [k] of the simple paths within [MAX_STOPS], in the generator's
    order: a path over the limit is skipped and takes no place among the
    [k].  Fewer than [k] are returned exactly when fewer than [k] simple
    paths are within the limit, and then all of those are returned. *)
Theorem k_shortest_paths_properties :
  forall (g : DiGraph) (s t : string) (k : Z) (c : string),
    has_node g s = true -> has_node g t = true ->
    nonneg_weights g (weight_map_get c) = true ->
    (1 <= k)%Z ->
    let w := weight_map_get c in
    let valid := filter within_max_stops (nx_shortest_simple_paths g s t w) in
    exists res,
      find_k_shortest_paths g s t k c = Ok res
      /\ (len res <= k)%Z
      /\ StronglySorted
           (fun a b => path_weight g w (path a) <= path_weight g w (path b)) res
      /\ NoDup (paths_of res)
      /\ (forall r, In r res ->
            simple_path g s t (path r)
            /\ (stop_count (path r) <= Config.MAX_STOPS)%Z
            /\ _calculate_path_metrics g (path r) = Ok r)
      /\ paths_of res = firstn (Z.to_nat k) valid
      /\ NoDup valid
      /\ (forall p, In p valid
                    <-> simple_path g s t p
                        /\ (stop_count p <= Config.MAX_STOPS)%Z)
      /\ ((len res < k)%Z <-> (len valid < k)%Z)
      /\ ((len res < k)%Z -> paths_of res = valid).
Proof.
  intros g s t k c Hs Ht Hw Hk w valid.
  pose proof (simple_paths_nodup g s t w Hs Ht Hw) as ND.
  pose proof (simple_paths_sorted g s t w Hs Ht Hw) as SS.
  assert (Spec : forall p, In p valid
                   <-> simple_path g s t p
                       /\ (stop_count p <= Config.MAX_STOPS)%Z).
  { intros p. unfold valid. rewrite filter_In.
    rewrite (simple_paths_complete g s t w p Hs Ht Hw).
    unfold within_max_stops. rewrite Z.leb_le. tauto. }
  assert (Walks : forall p, In p (nx_shortest_simple_paths g s t w) ->
                            is_walk g p = true).
  { intros p Hp. apply (simple_paths_complete g s t w p Hs Ht Hw) in Hp.
    destruct Hp as [P _]. exact (is_path_walk _ _ _ _ P). }
  destruct (k_paths_loop_spec g k _ Walks []) as (res & E & P & M).
  { unfold len. simpl. lia. }
  change (len (@nil PathResult)) with 0%Z in P. rewrite Z.sub_0_r in P.
  fold valid in P.
  assert (Len : len res = Z.of_nat (List.length (firstn (Z.to_nat k) valid))).
  { rewrite <- P. unfold len, paths_of. rewrite length_map. reflexivity. }
  rewrite length_firstn in Len.
  exists res. split.
  { unfold find_k_shortest_paths. rewrite Hs, Ht. exact E. }
  split; [lia |].
  split.
  { apply (StronglySorted_map (fun p q => path_weight g w p <= path_weight g w q)).
    fold (paths_of res). rewrite P.
    apply StronglySorted_firstn, StronglySorted_filter. exact SS. }
  split; [rewrite P; apply NoDup_firstn, NoDup_filter; exact ND |].
  split.
  { intros r Hr.
    assert (V : In (path r) valid).
    { apply (In_firstn (Z.to_nat k)). rewrite <- P. apply in_map. exact Hr. }
    apply Spec in V. destruct V as [V1 V2].
    split; [exact V1 |]. split; [exact V2 |]. apply M. exact Hr. }
  split; [exact P |].
  split; [apply NoDup_filter; exact ND |].
  split; [exact Spec |].
  split; [unfold len at 2; lia |].
  intros L. rewrite P. apply firstn_all2. rewrite Len in L. lia.
Qed.


End KSearchFacts.

(* ================================================================== *)
(** * Properties of the degree centrality *)

Lemma build_graph_well_formed geodesic_km airports routes :
  well_formed (_build_graph geodesic_km airports routes).
Proof.
  split; [apply build_graph_nodes_NoDup |].
  split; [apply build_graph_edges_NoDup |].
  intros u v H. apply has_edge_In in H.
  destruct (build_graph_endpoints _ _ _ _ _ H) as [Hu Hv].
  rewrite <- !has_node_In. auto.
Qed.

Lemma candidates_route geodesic_km airports routes (s d : string) :
  candidates geodesic_km airports routes s d <> [] ->
  exists r, In r routes /\ source_airport r = s /\ destination_airport r = d.
Proof.
  unfold candidates. induction routes as [| r l IH]; simpl; [congruence |].
  destruct (candidate geodesic_km airports s d r) eqn:C.
  - intros _. exists r. apply candidate_inv in C. intuition.
  - intros N. destruct (IH N) as (r' & I & E). exists r'. auto.
Qed.

(** A network built from routes none of which is a loop has no loop. *)
Lemma build_graph_no_loop geodesic_km airports routes (n : string) :
  (forall r, In r routes -> source_airport r <> destination_airport r) ->
  ~ In (n, n) (edge_keys (_build_graph geodesic_km airports routes)).
Proof.
  intros NL H. apply has_edge_In in H.
  rewrite has_edge_get_edge, build_graph_get_edge in H.
  destruct (candidates_route geodesic_km airports routes n n) as (r & I & Es & Ed).
  - intros E. rewrite E in H. discriminate.
  - apply (NL r I). congruence.
Qed.

Section Degrees.

Variable g : DiGraph.
Hypothesis WF : well_formed g.

Lemma in_edges_sources (n : string) :
  NoDup (map fst (filter (fun k => String.eqb n (snd k)) (edge_keys g)))
  /\ incl (map fst (filter (fun k => String.eqb n (snd k)) (edge_keys g)))
          (node_keys g).
Proof.
  destruct WF as (_ & NE & EP). split.
  - apply Finite.Injective_map_NoDup_in; [| apply NoDup_filter; exact NE].
    intros [a b] [c d] Hx Hy. apply filter_In in Hx, Hy. simpl in *.
    destruct Hx as [_ Hx], Hy as [_ Hy]. apply String.eqb_eq in Hx, Hy.
    intros ->. congruence.
  - intros x Hx. apply in_map_iff in Hx. destruct Hx as [[a b] [E H]].
    apply filter_In in H. destruct H as [H _]. simpl in E. subst.
    apply (EP _ _ H).
Qed.

Lemma out_edges_targets (n : string) :
  NoDup (map snd (filter (fun k => String.eqb n (fst k)) (edge_keys g)))
  /\ incl (map snd (filter (fun k => String.eqb n (fst k)) (edge_keys g)))
          (node_keys g).
Proof.
  destruct WF as (_ & NE & EP). split.
  - apply Finite.Injective_map_NoDup_in; [| apply NoDup_filter; exact NE].
    intros [a b] [c d] Hx Hy. apply filter_In in Hx, Hy. simpl in *.
    destruct Hx as [_ Hx], Hy as [_ Hy]. apply String.eqb_eq in Hx, Hy.
    intros ->. congruence.
  - intros x Hx. apply in_map_iff in Hx. destruct Hx as [[a b] [E H]].
    apply filter_In in H. destruct H as [H _]. simpl in E. subst.
    apply (EP _ _ H).
Qed.

Lemma node_keys_length : List.length (node_keys g) = number_of_nodes g.
Proof. unfold node_keys, number_of_nodes. apply length_map. Qed.

Lemma in_degree_le (n : string) : (in_degree g n <= number_of_nodes g)%nat.
Proof.
  destruct (in_edges_sources n) as [N I].
  pose proof (NoDup_incl_length N I) as L.
  rewrite length_map, node_keys_length in L. exact L.
Qed.

Lemma out_degree_le (n : string) : (out_degree g n <= number_of_nodes g)%nat.
Proof.
  destruct (out_edges_targets n) as [N I].
  pose proof (NoDup_incl_length N I) as L.
  rewrite length_map, node_keys_length in L. exact L.
Qed.

Lemma in_degree_lt (n : string) :
  In n (node_keys g) -> ~ In (n, n) (edge_keys g) ->
  (in_degree g n < number_of_nodes g)%nat.
Proof.
  intros Hn NL. destruct (in_edges_sources n) as [N I].
  assert (N' : NoDup (n :: map fst
                 (filter (fun k => String.eqb n (snd k)) (edge_keys g)))).
  { constructor; [| exact N]. intros H. apply in_map_iff in H.
    destruct H as [[a b] [E H]]. apply filter_In in H. simpl in *.
    destruct H as [H F]. apply String.eqb_eq in F. subst. exact (NL H). }
  assert (I' : incl (n :: map fst
                 (filter (fun k => String.eqb n (snd k)) (edge_keys g)))
                 (node_keys g)).
  { intros x [<- | Hx]; [exact Hn | apply I; exact Hx]. }
  pose proof (NoDup_incl_length N' I') as L.
  cbn [List.length] in L. rewrite length_map, node_keys_length in L. exact L.
Qed.

Lemma out_degree_lt (n : string) :
  In n (node_keys g) -> ~ In (n, n) (edge_keys g) ->
  (out_degree g n < number_of_nodes g)%nat.
Proof.
  intros Hn NL. destruct (out_edges_targets n) as [N I].
  assert (N' : NoDup (n :: map snd
                 (filter (fun k => String.eqb n (fst k)) (edge_keys g)))).
  { constructor; [| exact N]. intros H. apply in_map_iff in H.
    destruct H as [[a b] [E H]]. apply filter_In in H. simpl in *.
    destruct H as [H F]. apply String.eqb_eq in F. subst. exact (NL H). }
  assert (I' : incl (n :: map snd
                 (filter (fun k => String.eqb n (fst k)) (edge_keys g)))
                 (node_keys g)).
  { intros x [<- | Hx]; [exact Hn | apply I; exact Hx]. }
  pose proof (NoDup_incl_length N' I') as L.
  cbn [List.length] in L. rewrite length_map, node_keys_length in L. exact L.
Qed.

End Degrees.

Lemma nx_degree_centrality_formula (g : DiGraph) (n : string) :
  (2 <= number_of_nodes g)%nat ->
  nx_degree_centrality g n
  == inject_Z (Z.of_nat (in_degree g n + out_degree g n))
     / (inject_Z (Z.of_nat (number_of_nodes g)) - 1).
Proof.
  intros H. unfold nx_degree_centrality, number_of_nodes in *.
  destruct (Nat.leb_spec (List.length (nodes g)) 1) as [L | _]; [lia |].
  unfold degree. field.
  intros E.
  assert (Z : (2 <= Z.of_nat (List.length (nodes g)))%Z) by lia.
  rewrite Zle_Qle in Z. change (inject_Z 2) with 2 in Z. lra.
Qed.

Lemma nx_degree_centrality_bounds (g : DiGraph) (n : string) (c : Z) :
  (1 <= c)%Z ->
  ((2 <= number_of_nodes g)%nat ->
   (Z.of_nat (degree g n) <= c * (Z.of_nat (number_of_nodes g) - 1))%Z) ->
  0 <= nx_degree_centrality g n <= inject_Z c.
Proof.
  intros Hc H. unfold nx_degree_centrality.
  fold (number_of_nodes g).
  rewrite Zle_Qle in Hc.
  destruct (Nat.leb_spec (number_of_nodes g) 1) as [L | L].
  - change (inject_Z 1) with 1 in Hc. lra.
  - assert (M : 0 < inject_Z (Z.of_nat (number_of_nodes g)) - 1).
    { assert (Z : (2 <= Z.of_nat (number_of_nodes g))%Z) by lia.
      rewrite Zle_Qle in Z. change (inject_Z 2) with 2 in Z. lra. }
    assert (D : 0 <= inject_Z (Z.of_nat (degree g n))).
    { rewrite <- (Zle_Qle 0). lia. }
    specialize (H L). unfold Z.sub in H.
    rewrite Zle_Qle, inject_Z_mult, inject_Z_plus, inject_Z_opp in H.
    change (inject_Z 1) with 1 in H.
    assert (E : inject_Z (Z.of_nat (degree g n))
                * (1 / (inject_Z (Z.of_nat (number_of_nodes g)) - 1))
                == inject_Z (Z.of_nat (degree g n))
                   / (inject_Z (Z.of_nat (number_of_nodes g)) - 1)).
    { field. lra. }
    rewrite E. split.
    + apply Qle_shift_div_l; [exact M | lra].
    + apply Qle_shift_div_r; [exact M | exact H].
Qed.

(** C4, as the code has it.  In a built network the reported degree
    centrality of an airport is its in-degree plus its out-degree, divided
    by N - 1 for N >= 2 airports, rounded to 6 digits.  The in-degree and
    the out-degree are each at most N - 1 when no input route is a loop,
    and at most N otherwise, so the score lies in [0, 2] for an input
    without loops and in [0, 4] in general. *)
Theorem degree_centrality_range :
  forall (geodesic_km : Q -> Q -> Q -> Q -> Q)
         (airports : list Airport) (routes : list Route)
         (airport : string) (r : CentralityRecord),
    let g := _build_graph geodesic_km airports routes in
    In (airport, r) (calculate_centrality_metrics g) ->
    degree_centrality r = py_round (nx_degree_centrality g airport) 6
    /\ ((2 <= number_of_nodes g)%nat ->
        nx_degree_centrality g airport
        == inject_Z (Z.of_nat (in_degree g airport + out_degree g airport))
           / (inject_Z (Z.of_nat (number_of_nodes g)) - 1))
    /\ 0 <= degree_centrality r <= 4
    /\ ((forall route, In route routes ->
           source_airport route <> destination_airport route) ->
        0 <= degree_centrality r <= 2).
Proof.
  intros geodesic_km airports routes airport r g H.
  unfold calculate_centrality_metrics in H. apply in_map_iff in H.
  destruct H as (a & E & Ha). inversion E; subst a r. clear E.
  cbn [degree_centrality centrality_entry].
  pose proof (build_graph_well_formed geodesic_km airports routes) as WF.
  fold g in WF.
  assert (N1 : (1 <= number_of_nodes g)%nat).
  { rewrite <- node_keys_length. destruct (node_keys g); [destruct Ha |].
    simpl. lia. }
  split; [reflexivity |].
  split; [apply nx_degree_centrality_formula |].
  split.
  - apply (py_round_bounds _ 6 0 4).
    apply nx_degree_centrality_bounds; [lia |].
    pose proof (in_degree_le g WF airport).
    pose proof (out_degree_le g WF airport).
    unfold degree. lia.
  - intros NL. apply (py_round_bounds _ 6 0 2).
    apply nx_degree_centrality_bounds; [lia |].
    pose proof (build_graph_no_loop geodesic_km airports routes airport NL) as L.
    fold g in L.
    pose proof (in_degree_lt g WF airport Ha L).
    pose proof (out_degree_lt g WF airport Ha L).
    unfold degree. lia.
Qed.

(** C4, as the specification has it, fails: with two airports joined in
    both directions each has degree 2 and N - 1 = 1, so the reported score
    is 2. *)
Lemma degree_centrality_exceeds_one :
  exists r,
    In ("AAA", r) (calculate_centrality_metrics pair_network)
    /\ degree_centrality r = 2
    /\ ~ (0 <= degree_centrality r <= 1).
Proof.
  exists (centrality_entry pair_network "AAA").
  split; [left; reflexivity |].
  split; [reflexivity |].
  intros [_ H]. vm_compute in H. apply H. reflexivity.
Qed.

(* ================================================================== *)
(** * Properties of the transfer time and of the alternative hubs *)

(** C9.  The transfer time does not depend on the airport code: it is the
    international duration over 60 (2 hours) for an international transfer
    and the default duration over 60 (1.5 hours) otherwise, for any two
    codes, known to a network or not. *)
Theorem transfer_time_ignores_airport :
  forall (a b : string) (v : bool),
    get_transfer_time a v = get_transfer_time b v
    /\ get_transfer_time a true
       = inject_Z Config.INTERNATIONAL_TRANSFER_TIME / 60
    /\ get_transfer_time a false
       = inject_Z Config.DEFAULT_TRANSFER_TIME / 60
    /\ get_transfer_time a true == 2
    /\ get_transfer_time a false == 3 # 2.
Proof.
  intros a b v. unfold get_transfer_time.
  split; [destruct v; reflexivity |].
  split; [reflexivity |]. split; [reflexivity |].
  split; vm_compute; reflexivity.
Qed.

Lemma get_country_by_iata_missing (g : DiGraph) :
  FlightGraph_get_country_by_iata g = Raise (AttributeError "_get_country_by_iata").
Proof. unfold FlightGraph_get_country_by_iata. reflexivity. Qed.

(** C3, on the code: [find_alternative_hubs] asks the flight graph for
    [_get_country_by_iata] before it looks at any node, and class
    [FlightGraph] has no such attribute, so every call raises
    [AttributeError]. *)
Theorem find_alternative_hubs_raises :
  forall (g : DiGraph) (source target primary_hub : string) (top_k : Z),
    find_alternative_hubs g source target primary_hub top_k
    = Raise (AttributeError "_get_country_by_iata").
Proof.
  intros g source target primary_hub top_k. unfold find_alternative_hubs.
  rewrite get_country_by_iata_missing. reflexivity.
Qed.

(** Past the missing lookup, the loop keeps a node exactly when it is none
    of source, target and primary hub and both legs exist. *)
Lemma hub_option_kept (g : DiGraph) (get_country : string -> option string)
    (source target primary_hub h : string) :
  is_some (hub_option g get_country source target primary_hub h) = true
  <-> h <> source /\ h <> target /\ h <> primary_hub
      /\ has_edge g source h = true /\ has_edge g h target = true.
Proof.
  unfold hub_option.
  destruct (String.eqb_spec h source) as [-> | N1]; simpl.
  { split; [discriminate | tauto]. }
  destruct (String.eqb_spec h target) as [-> | N2]; simpl.
  { split; [discriminate | tauto]. }
  destruct (String.eqb_spec h primary_hub) as [-> | N3]; simpl.
  { split; [discriminate | tauto]. }
  rewrite !has_edge_get_edge.
  destruct (get_edge g source h), (get_edge g h target); simpl;
    split; try discriminate; try tauto; intuition discriminate.
Qed.

(* ================================================================== *)
(** * The engine on the example networks *)

(** The example network keeps the first of the two AAA-BBB routes (their
    costs tie) and drops the route from an unknown airport. *)
Example example_network_edges :
  edge_keys example_network
  = [("AAA", "BBB"); ("BBB", "CCC"); ("CCC", "DDD"); ("AAA", "EEE"); ("EEE", "DDD")]
  /\ option_map edge_airline (get_edge example_network "AAA" "BBB") = Some "XA".
Proof. split; vm_compute; reflexivity. Qed.

Lemma build_graph_witness :
  get_edge (add_route taxicab example_airports costly_graph
              (mkRoute "XA" "AAA" "BBB")) "AAA" "BBB"
  = Some (mkEdge 800 (800 # 800) (800 # 10) "XA")
  /\ add_route taxicab example_airports example_network
       (mkRoute "XD" "AAA" "BBB") = example_network.
Proof.
  pose proof (build_graph_keeps_lowest_cost_edge taxicab example_airports
                example_routes) as (_ & _ & _ & Step).
  destruct (Step costly_graph (mkRoute "XA" "AAA" "BBB") "AAA" "BBB"
              (mkEdge 800 (800 # 800) (800 # 10) "XA")
              (mkEdge 900 (9 # 8) 90 "XX") eq_refl eq_refl) as [Lower _].
  destruct (Step example_network (mkRoute "XD" "AAA" "BBB") "AAA" "BBB"
              (mkEdge 800 (800 # 800) (800 # 10) "XD")
              (mkEdge 800 (800 # 800) (800 # 10) "XA") eq_refl eq_refl)
    as [_ Tie].
  split.
  - apply Lower. reflexivity.
  - apply Tie. intros H. vm_compute in H. discriminate H.
Defined.

Example example_shortest_path :
  exists r,
    find_shortest_path (nx := reference_networkx)
      example_network "AAA" "DDD" "time" None = Ok (Some r)
    /\ path r = ["AAA"; "BBB"; "CCC"; "DDD"]
    /\ stops r = 2%Z
    /\ total_distance r = 2400 /\ total_flight_time r = 3
    /\ total_transfer_time r = 3 /\ total_time r = 6 /\ total_cost r = 240.
Proof.
  eexists. split; [vm_compute; reflexivity |].
  repeat split.
Qed.

Lemma stop_limit_witness :
  find_shortest_path (nx := reference_networkx)
    example_network "AAA" "DDD" "time" (Some 1%Z) = Ok None
  /\ is_path example_network "AAA" "DDD" ["AAA"; "EEE"; "DDD"].
Proof.
  pose proof (@stop_limit_checks_only_the_shortest_path reference_networkx)
    as (Iff & _ & _).
  split; [| reflexivity].
  apply (Iff example_network "AAA" "DDD" "time" 1%Z); [reflexivity .. |].
  right. exists ["AAA"; "BBB"; "CCC"; "DDD"].
  split; [vm_compute; reflexivity | vm_compute; reflexivity].
Defined.

Lemma degree_centrality_range_witness :
  In ("BBB", centrality_entry example_network "BBB")
     (calculate_centrality_metrics example_network)
  /\ 0 <= degree_centrality (centrality_entry example_network "BBB") <= 2.
Proof.
  assert (I : In ("BBB", centrality_entry example_network "BBB")
                 (calculate_centrality_metrics example_network)).
  { apply in_map_iff. exists "BBB". split; [reflexivity |].
    vm_compute. tauto. }
  split; [exact I |].
  apply (degree_centrality_range taxicab example_airports example_routes
           "BBB" (centrality_entry example_network "BBB") I).
  intros route H. vm_compute in H.
  repeat (destruct H as [H | H]; [subst route; simpl; discriminate |]).
  destruct H.
Defined.

Lemma k_shortest_paths_witness :
  exists res,
    find_k_shortest_paths (nx := reference_networkx)
      example_network "AAA" "DDD" 5 "time" = Ok res
    /\ (len res < 5)%Z
    /\ paths_of res = [["AAA"; "BBB"; "CCC"; "DDD"]; ["AAA"; "EEE"; "DDD"]].
Proof.
  destruct (@k_shortest_paths_properties reference_networkx
              example_network "AAA" "DDD" 5%Z "time"
              eq_refl eq_refl eq_refl ltac:(lia))
    as (res & E & _ & _ & _ & _ & P & _ & _ & L & _).
  exists res. split; [exact E |].
  split; [apply L; vm_compute; reflexivity | rewrite P; vm_compute; reflexivity].
Defined.

(** The shortest path from AAA to FFF has four stops: the enumeration
    passes over it and returns the path through GGG as the first. *)
Example k_shortest_skips_long_paths :
  nx_shortest_simple_paths (NetworkX := reference_networkx)
    line_network "AAA" "FFF" attr_time_cost
  = [["AAA"; "BBB"; "CCC"; "DDD"; "EEE"; "FFF"]; ["AAA"; "GGG"; "FFF"]]
  /\ exists r,
       find_k_shortest_paths (nx := reference_networkx)
         line_network "AAA" "FFF" 1 "time" = Ok [r]
       /\ path r = ["AAA"; "GGG"; "FFF"].
Proof.
  split; [vm_compute; reflexivity |].
  eexists. split; [vm_compute; reflexivity | reflexivity].
Qed.


Lemma unknown_selector_witness :
  find_shortest_path (nx := reference_networkx)
    example_network "AAA" "DDD" "speed" None
  = find_shortest_path (nx := reference_networkx)
      example_network "AAA" "DDD" "time" None.
Proof.
  apply (@unknown_selector_defaults_to_time reference_networkx
           example_network "AAA" "DDD" "speed" None 5%Z);
    intros H; discriminate H.
Defined.


(** Removing BBB leaves the route through EEE. *)
Example hub_removal_example :
  exists impact,
    analyze_hub_removal (nx := reference_networkx)
      example_network "AAA" "DDD" ["BBB"] = Ok impact
    /\ option_map path (alternative_path impact) = Some ["AAA"; "EEE"; "DDD"]
    /\ stops_increase impact = Some (-1)%Z
    /\ time_increase impact = Some (5 # 2).
Proof.
  eexists. split; [vm_compute; reflexivity |]. repeat split.
Qed.

Lemma same_airport_witness :
  exists r,
    find_shortest_path (nx := reference_networkx)
      example_network "AAA" "AAA" "time" (Some 0%Z) = Ok (Some r)
    /\ path r = ["AAA"] /\ stops r = (-1)%Z.
Proof.
  destruct (@same_airport_route_is_degenerate reference_networkx
              example_network "AAA" "time" (Some 0%Z) eq_refl
              ltac:(intros m E; inversion E; lia))
    as (r & E & P & _ & S & _).
  exists r. auto.
Defined.

(** What a caller of the alternative-hub search gets on the example
    network, where EEE joins AAA to DDD. *)
Example alternative_hubs_example :
  has_edge example_network "AAA" "EEE" = true
  /\ has_edge example_network "EEE" "DDD" = true
  /\ find_alternative_hubs example_network "AAA" "DDD" "BBB" 5
     = Raise (AttributeError "_get_country_by_iata").
Proof. repeat split. Qed.

Lemma taxicab_nonneg (a b c d : Q) : 0 <= taxicab a b c d.
Proof.
  unfold taxicab.
  pose proof (Qabs_nonneg (a - c)). pose proof (Qabs_nonneg (b - d)). lra.
Qed.

Lemma build_graph_nonneg_witness :
  nonneg_weights example_network attr_distance = true.
Proof.
  exact (build_graph_nonneg_weights taxicab example_airports example_routes
           attr_distance taxicab_nonneg).
Defined.

Lemma same_airport_negative_witness :
  find_shortest_path (nx := reference_networkx)
    example_network "AAA" "AAA" "time" (Some (-2)%Z) = Ok None.
Proof.
  apply (@same_airport_negative_limit reference_networkx
           example_network "AAA" "time" (-2)%Z); [reflexivity | lia].
Defined.

(* ================================================================== *)
(** * More about the built network *)

Lemma get_node_set_node (l : list (string * NodeAttrs)) (n m : string)
    (a : NodeAttrs) :
  option_map snd (find (fun e => String.eqb m (fst e)) (set_node l n a))
  = if String.eqb m n then Some a
    else option_map snd (find (fun e => String.eqb m (fst e)) l).
Proof.
  induction l as [| [k b] l IH]; simpl.
  - destruct (String.eqb m n); reflexivity.
  - destruct (String.eqb_spec n k) as [-> | N]; simpl.
    + destruct (String.eqb m k); reflexivity.
    + destruct (String.eqb_spec m k) as [-> | M]; simpl.
      * destruct (String.eqb_spec k n) as [E | _]; [congruence | reflexivity].
      * exact IH.
Qed.

Lemma find_app {A : Type} (f : A -> bool) (l1 l2 : list A) :
  find f (l1 ++ l2)
  = match find f l1 with
    | Some x => Some x
    | None => find f l2
    end.
Proof.
  induction l1 as [| x l1 IH]; simpl; [reflexivity |].
  destruct (f x); [reflexivity | exact IH].
Qed.

Lemma add_airports_get_node (airports : list Airport) (g : DiGraph) (n : string) :
  get_node (fold_left add_airport airports g) n
  = match find (fun a => String.eqb (iata a) n) (rev airports) with
    | Some a => Some (airport_node a)
    | None => get_node g n
    end.
Proof.
  revert g. induction airports as [| a l IH]; intros g; simpl; [reflexivity |].
  rewrite IH, find_app. simpl.
  destruct (find (fun a0 => String.eqb (iata a0) n) (rev l)); [reflexivity |].
  unfold get_node, add_airport, add_node. simpl.
  rewrite get_node_set_node, (String.eqb_sym n (iata a)).
  destruct (String.eqb (iata a) n); reflexivity.
Qed.

Lemma find_first_last_unique (airports : list Airport) (n : string) :
  NoDup (map iata airports) ->
  find (fun a => String.eqb (iata a) n) (rev airports)
  = find (fun a => String.eqb (iata a) n) airports.
Proof.
  induction airports as [| a l IH]; intros N; simpl; [reflexivity |].
  inversion N as [| ? ? Na Nl]; subst.
  rewrite find_app, (IH Nl). simpl.
  destruct (String.eqb_spec (iata a) n) as [E | _].
  - destruct (find (fun a0 => String.eqb (iata a0) n) l) as [b |] eqn:F;
      [| reflexivity].
    apply find_some in F. destruct F as [I B]. apply String.eqb_eq in B.
    exfalso. apply Na. rewrite E, <- B. apply in_map. exact I.
  - destruct (find (fun a0 => String.eqb (iata a0) n) l); reflexivity.
Qed.

(** The nodes of the built network are the airport codes of the input,
    each once, whatever the routes are: a route adds no node.  When a code
    has several rows, the node carries the attributes of the last one,
    while the distances of its routes are computed from the first one; with
    unique codes the two agree. *)
Theorem build_graph_nodes :
  forall (geodesic_km : Q -> Q -> Q -> Q -> Q)
         (airports : list Airport) (routes : list Route),
    let g := _build_graph geodesic_km airports routes in
    NoDup (node_keys g)
    /\ (forall n, has_node g n = true <-> In n (map iata airports))
    /\ (List.length (nodes g) <= List.length airports)%nat
    /\ (forall n,
          get_node g n
          = option_map airport_node
              (find (fun a => String.eqb (iata a) n) (rev airports)))
    /\ (NoDup (map iata airports) ->
        forall n, get_node g n = option_map airport_node (airport_row airports n)).
Proof.
  intros geodesic_km airports routes g.
  assert (G : forall n,
             get_node g n
             = option_map airport_node
                 (find (fun a => String.eqb (iata a) n) (rev airports))).
  { intros n. unfold g, _build_graph, get_node. rewrite routes_loop_nodes.
    fold (get_node (fold_left add_airport airports empty_graph) n).
    rewrite add_airports_get_node.
    destruct (find _ (rev airports)); reflexivity. }
  split; [apply build_graph_nodes_NoDup |].
  split; [intros n; rewrite has_node_In; apply build_graph_node_keys |].
  split.
  - rewrite <- (length_map fst (nodes g)), <- (length_map iata airports).
    apply NoDup_incl_length; [apply build_graph_nodes_NoDup |].
    intros n Hn. apply (build_graph_node_keys geodesic_km airports routes).
    exact Hn.
  - split; [exact G |].
    intros N n. rewrite G, (find_first_last_unique airports n N). reflexivity.
Qed.

Lemma candidates_In geodesic_km airports routes (s d : string) (e : EdgeAttrs) :
  In e (candidates geodesic_km airports routes s d) <->
  exists r, In r routes /\ candidate geodesic_km airports s d r = Some e.
Proof.
  unfold candidates. induction routes as [| r l IH]; simpl.
  - split; [tauto | intros (r & [] & _)].
  - destruct (candidate geodesic_km airports s d r) as [c |] eqn:C; simpl.
    + rewrite IH. split.
      * intros [<- | (r' & I & E)]; [exists r; auto | exists r'; auto].
      * intros (r' & [<- | I] & E); [left; congruence | right; eauto].
    + rewrite IH. split.
      * intros (r' & I & E). exists r'. auto.
      * intros (r' & [<- | I] & E); [congruence | eauto].
Qed.

Lemma candidate_of_valid_route geodesic_km airports (r : Route) :
  valid_iata airports (source_airport r) = true ->
  valid_iata airports (destination_airport r) = true ->
  exists e, candidate geodesic_km airports
              (source_airport r) (destination_airport r) r = Some e.
Proof.
  intros Vs Vd. unfold candidate. rewrite !String.eqb_refl, Vs, Vd. simpl.
  destruct (valid_iata_row _ _ Vs) as (sa & -> & _).
  destruct (valid_iata_row _ _ Vd) as (da & -> & _). eauto.
Qed.

Lemma build_graph_has_edge_iff :
  forall (geodesic_km : Q -> Q -> Q -> Q -> Q)
         (airports : list Airport) (routes : list Route) (s d : string),
    has_edge (_build_graph geodesic_km airports routes) s d = true
    <-> exists r, In r routes
                  /\ source_airport r = s /\ destination_airport r = d
                  /\ In s (map iata airports) /\ In d (map iata airports).
Proof.
  intros geodesic_km airports routes s d.
  rewrite has_edge_get_edge, build_graph_get_edge. split.
  - intros H.
    assert (N : candidates geodesic_km airports routes s d <> []).
    { intros E. rewrite E in H. discriminate. }
    destruct (candidates_route _ _ _ _ _ N) as (r & I & Es & Ed).
    destruct (candidates_valid _ _ _ _ _ N) as [Vs Vd].
    exists r. rewrite <- !valid_iata_In. auto.
  - intros (r & I & <- & <- & Vs & Vd).
    apply valid_iata_In in Vs, Vd.
    destruct (candidate_of_valid_route geodesic_km airports r Vs Vd) as [e C].
    assert (In e (candidates geodesic_km airports routes
                    (source_airport r) (destination_airport r))).
    { apply candidates_In. eauto. }
    destruct (candidates geodesic_km airports routes _ _); [contradiction |].
    reflexivity.
Qed.

(** The built network has an edge from [s] to [d] exactly when some input
    route goes from [s] to [d] and both are airport codes of the input:
    a route with an unknown endpoint is dropped, no other route is, and no
    edge comes from anywhere else (in particular, the reverse edge exists
    only if a reverse route does). *)
Theorem build_graph_has_edge :
  forall (geodesic_km : Q -> Q -> Q -> Q -> Q)
         (airports : list Airport) (routes : list Route) (s d : string),
    has_edge (_build_graph geodesic_km airports routes) s d = true
    <-> exists r, In r routes
                  /\ source_airport r = s /\ destination_airport r = d
                  /\ In s (map iata airports) /\ In d (map iata airports).
Proof.
  intros geodesic_km airports routes s d.
  split; apply build_graph_has_edge_iff.
Qed.

Lemma keep_lowest_In (kept : EdgeAttrs) (cands : list EdgeAttrs) :
  In (keep_lowest kept cands) (kept :: cands).
Proof.
  revert kept. induction cands as [| c rest IH]; intros kept; simpl;
    [left; reflexivity |].
  destruct (IH (if Qlt_bool (monetary_cost c) (monetary_cost kept)
                then c else kept)) as [E | I].
  - destruct (Qlt_bool _ _); [right; left | left]; exact E.
  - right. right. exact I.
Qed.

(** Every edge of the built network carries the distance between the first
    rows of its two airports, a time cost of that distance over 800, a
    monetary cost of that distance times the per-km rate, and the airline
    of an input route between the two. *)
Theorem build_graph_edge_attributes :
  forall (geodesic_km : Q -> Q -> Q -> Q -> Q)
         (airports : list Airport) (routes : list Route)
         (s d : string) (e : EdgeAttrs),
    get_edge (_build_graph geodesic_km airports routes) s d = Some e ->
    exists sa da r,
      airport_row airports s = Some sa /\ airport_row airports d = Some da
      /\ In r routes /\ source_airport r = s /\ destination_airport r = d
      /\ distance e
         = geodesic_km (latitude sa) (longitude sa) (latitude da) (longitude da)
      /\ time_cost e = distance e / 800
      /\ monetary_cost e = distance e * Config.BASE_COST_PER_KM
      /\ edge_airline e = airline r.
Proof.
  intros geodesic_km airports routes s d e H.
  rewrite build_graph_get_edge in H.
  assert (I : In e (candidates geodesic_km airports routes s d)).
  { destruct (candidates geodesic_km airports routes s d) as [| c rest];
      [discriminate |].
    inversion H. apply keep_lowest_In. }
  apply candidates_In in I. destruct I as (r & Ir & C).
  apply candidate_inv in C.
  destruct C as (Es & Ed & _ & _ & sa & da & Rs & Rd & ->).
  exists sa, da, r. repeat split; auto.
Qed.

Lemma build_graph_nonneg_edges geodesic_km airports routes (w : edge_attr) :
  (forall a b c d, 0 <= geodesic_km a b c d) ->
  nonneg_weights (_build_graph geodesic_km airports routes) w = true.
Proof.
  intros H.
  assert (F : Forall (fun x => nonneg_edge (snd x))
                (edges (_build_graph geodesic_km airports routes))).
  { unfold _build_graph.
    assert (G : Forall (fun x => nonneg_edge (snd x))
                  (edges (fold_left add_airport airports empty_graph))).
    { rewrite add_airports_edges. constructor. }
    revert G. generalize (fold_left add_airport airports empty_graph).
    induction routes as [| r l IH]; intros g G; simpl; [exact G |].
    apply IH. apply add_route_nonneg; assumption. }
  unfold nonneg_weights. apply forallb_forall. intros x Hx.
  rewrite Forall_forall in F. destruct (F x Hx) as (D & T & C).
  apply Qle_bool_iff. destruct w; assumption.
Qed.

(* ================================================================== *)
(** * Degree sums and graph statistics *)

Lemma list_sum_map_add {A : Type} (f h : A -> nat) (l : list A) :
  list_sum (map (fun x => (f x + h x)%nat) l)
  = (list_sum (map f l) + list_sum (map h l))%nat.
Proof.
  induction l as [| x l IH]; simpl; [reflexivity |]. rewrite IH. lia.
Qed.

Lemma sum_indicator (x : string) (ns : list string) :
  NoDup ns -> In x ns ->
  list_sum (map (fun n => if String.eqb n x then 1%nat else 0%nat) ns) = 1%nat.
Proof.
  induction ns as [| n ns IH]; intros N I; [destruct I |].
  inversion N as [| ? ? Nn Nns]; subst. simpl.
  destruct (String.eqb_spec n x) as [-> | D].
  - assert (Z : list_sum (map (fun n => if String.eqb n x then 1%nat else 0%nat) ns)
                = 0%nat).
    { clear IH N Nns I. induction ns as [| m ns IH]; [reflexivity |]. simpl.
      destruct (String.eqb_spec m x) as [-> | _].
      - exfalso. apply Nn. left. reflexivity.
      - apply IH. intros H. apply Nn. right. exact H. }
    rewrite Z. reflexivity.
  - destruct I as [E | I]; [congruence |]. rewrite (IH Nns I). reflexivity.
Qed.

(** Counting the keys of [l] by the node [proj] sends them to counts each
    key once. *)
Lemma sum_count_by (proj : edge_key -> string) (ns : list string)
    (l : list edge_key) :
  NoDup ns -> (forall k, In k l -> In (proj k) ns) ->
  list_sum
    (map (fun n => List.length (filter (fun k => String.eqb n (proj k)) l)) ns)
  = List.length l.
Proof.
  intros N. induction l as [| k l IH]; intros H.
  - simpl. clear N H. induction ns as [| n ns IHn]; [reflexivity |].
    simpl. exact IHn.
  - assert (E : forall n,
               List.length (filter (fun k0 => String.eqb n (proj k0)) (k :: l))
               = ((if String.eqb n (proj k) then 1 else 0)
                  + List.length (filter (fun k0 => String.eqb n (proj k0)) l))%nat).
    { intros n. simpl. destruct (String.eqb n (proj k)); reflexivity. }
    rewrite (map_ext _ _ E), list_sum_map_add.
    rewrite (sum_indicator (proj k) ns N (H k (or_introl eq_refl))).
    rewrite IH; [reflexivity |]. intros k' Hk'. apply H. right. exact Hk'.
Qed.

Lemma degree_sums (g : DiGraph) :
  well_formed g ->
  list_sum (map (in_degree g) (node_keys g)) = List.length (edges g)
  /\ list_sum (map (out_degree g) (node_keys g)) = List.length (edges g)
  /\ degree_sum g = (2 * List.length (edges g))%nat.
Proof.
  intros (NN & _ & EP).
  assert (I : list_sum (map (in_degree g) (node_keys g)) = List.length (edges g)).
  { rewrite <- (length_map fst (edges g)).
    apply (sum_count_by snd (node_keys g) (edge_keys g) NN).
    intros [u v] H. apply (EP u v H). }
  assert (O : list_sum (map (out_degree g) (node_keys g)) = List.length (edges g)).
  { rewrite <- (length_map fst (edges g)).
    apply (sum_count_by fst (node_keys g) (edge_keys g) NN).
    intros [u v] H. apply (EP u v H). }
  split; [exact I |]. split; [exact O |].
  unfold degree_sum, degree. rewrite list_sum_map_add, I, O. lia.
Qed.

(** In every built network the in-degrees of the airports add up to the
    number of edges, and so do the out-degrees: each route kept is counted
    once at its source and once at its destination. *)
Theorem build_graph_degree_sums :
  forall (geodesic_km : Q -> Q -> Q -> Q -> Q)
         (airports : list Airport) (routes : list Route),
    let g := _build_graph geodesic_km airports routes in
    list_sum (map (in_degree g) (node_keys g)) = List.length (edges g)
    /\ list_sum (map (out_degree g) (node_keys g)) = List.length (edges g)
    /\ (List.length (edges g) <= List.length routes)%nat.
Proof.
  intros geodesic_km airports routes g.
  destruct (degree_sums g (build_graph_well_formed _ _ _)) as (I & O & _).
  split; [exact I |]. split; [exact O |].
  (* an edge per distinct ordered pair of the routes *)
  pose proof (build_graph_edges_NoDup geodesic_km airports routes) as N.
  fold g in N.
  rewrite <- (length_map fst (edges g)).
  rewrite <- (length_map (fun r => (source_airport r, destination_airport r)) routes).
  apply NoDup_incl_length; [exact N |].
  intros [s d] H. apply has_edge_In in H.
  apply build_graph_has_edge_iff in H. destruct H as (r & Ir & <- & <- & _).
  apply in_map_iff. exists r. auto.
Qed.


(* ================================================================== *)
(** * Removing hubs *)

Lemma get_edge_remove_node (g : DiGraph) (n u v : string) :
  get_edge (remove_node g n) u v
  = if String.eqb n u || String.eqb n v then None else get_edge g u v.
Proof.
  unfold get_edge, remove_node. simpl.
  induction (edges g) as [| [[a b] e] l IH]; simpl.
  - destruct (String.eqb n u || String.eqb n v); reflexivity.
  - destruct (key_eqb (u, v) (a, b)) eqn:K.
    + apply key_eqb_eq in K. inversion K; subst a b.
      destruct (String.eqb n u), (String.eqb n v); simpl;
        rewrite ?key_eqb_refl; try reflexivity; exact IH.
    + destruct (negb (String.eqb n a) && negb (String.eqb n b)); simpl;
        [rewrite K |]; exact IH.
Qed.

Lemma node_keys_remove_node (g : DiGraph) (n x : string) :
  In x (node_keys (remove_node g n)) <-> In x (node_keys g) /\ x <> n.
Proof.
  unfold node_keys, remove_node. simpl. rewrite !in_map_iff. split.
  - intros ([k a] & E & H). apply filter_In in H. destruct H as [H F].
    simpl in *. subst k. apply negb_true_iff, String.eqb_neq in F.
    split; [exists (x, a); auto | congruence].
  - intros (([k a] & E & H) & N). simpl in E. subst k.
    exists (x, a). split; [reflexivity |]. apply filter_In. split; [exact H |].
    simpl. apply negb_true_iff, String.eqb_neq. congruence.
Qed.

Lemma edge_keys_remove_node (g : DiGraph) (n u v : string) :
  In (u, v) (edge_keys (remove_node g n))
  <-> In (u, v) (edge_keys g) /\ u <> n /\ v <> n.
Proof.
  unfold edge_keys, remove_node. simpl. rewrite !in_map_iff. split.
  - intros ([k a] & E & H). apply filter_In in H. destruct H as [H F].
    simpl in *. subst k. simpl in F. apply andb_true_iff in F.
    destruct F as [F1 F2]. apply negb_true_iff, String.eqb_neq in F1, F2.
    split; [exists ((u, v), a); auto | split; congruence].
  - intros (([k a] & E & H) & N1 & N2). simpl in E. subst k.
    exists ((u, v), a). split; [reflexivity |]. apply filter_In.
    split; [exact H |]. simpl. apply andb_true_iff.
    split; apply negb_true_iff, String.eqb_neq; congruence.
Qed.

(** Filtering an association list keeps its keys distinct. *)
Lemma filter_keeps_keys_distinct {K V : Type} (keep : K * V -> bool)
    (xs : list (K * V)) (D : NoDup (map fst xs)) :
  NoDup (map fst (filter keep xs)).
Proof.
  revert D. induction xs as [| x xs IH]; simpl; intros D; [constructor |].
  inversion D as [| ? ? Dx Dxs]; subst.
  destruct (keep x); simpl; [| auto].
  constructor; [| auto].
  intros H. apply Dx. apply in_map_iff in H. destruct H as (y & E & Hy).
  apply filter_In in Hy. rewrite <- E. apply in_map. tauto.
Qed.

Lemma remove_node_well_formed (g : DiGraph) (n : string) :
  well_formed g -> well_formed (remove_node g n).
Proof.
  intros (NN & NE & EP). split; [| split].
  - apply filter_keeps_keys_distinct. exact NN.
  - apply filter_keeps_keys_distinct. exact NE.
  - intros u v H. apply edge_keys_remove_node in H.
    destruct H as (H & Nu & Nv). destruct (EP u v H) as [Hu Hv].
    rewrite !node_keys_remove_node. tauto.
Qed.

Section RemoveHubs.

Variables source target : string.

Lemma remove_hubs_nodes (hubs : list string) :
  forall g x,
    In x (node_keys (remove_hubs g source target hubs))
    <-> In x (node_keys g) /\ (x = source \/ x = target \/ ~ In x hubs).
Proof.
  induction hubs as [| h hubs IH]; intros g x.
  - simpl. tauto.
  - change (remove_hubs g source target (h :: hubs))
      with (remove_hubs
              (if has_node g h && negb (String.eqb h source)
                  && negb (String.eqb h target)
               then remove_node g h else g) source target hubs).
    rewrite IH. simpl In.
    destruct (has_node g h) eqn:Hh; simpl.
    + destruct (String.eqb_spec h source) as [-> | Ns]; simpl.
      { split; [| tauto]. intros (I & [E | [E | N]]); auto.
        destruct (string_dec source x) as [<- | D]; [auto |].
        split; [exact I |]. right. right. tauto. }
      destruct (String.eqb_spec h target) as [-> | Nt]; simpl.
      { split; [| tauto]. intros (I & [E | [E | N]]); auto.
        destruct (string_dec target x) as [<- | D]; [auto |].
        split; [exact I |]. right. right. tauto. }
      rewrite node_keys_remove_node. split.
      * intros ((I & D) & [E | [E | N]]); auto.
        split; [exact I |]. right. right. intros [E | H]; auto.
      * intros (I & [E | [E | N]]).
        -- split; [split; [exact I | congruence] | auto].
        -- split; [split; [exact I | congruence] | auto].
        -- split; [split; [exact I | intros ->; apply N; auto] |].
           right. right. tauto.
    + split.
      * intros (I & [E | [E | N]]); auto.
        split; [exact I |]. right. right. intros [E | H]; auto.
        subst. apply has_node_In in I. congruence.
      * intros (I & [E | [E | N]]); auto.
        split; [exact I |]. right. right. tauto.
Qed.

Lemma remove_hubs_step (g : DiGraph) (h : string) (hubs : list string) :
  remove_hubs g source target (h :: hubs)
  = remove_hubs
      (if has_node g h && negb (String.eqb h source)
          && negb (String.eqb h target)
       then remove_node g h else g) source target hubs.
Proof. reflexivity. Qed.

(** An edge of the working copy is an edge of the graph, unchanged. *)
Lemma remove_hubs_get_edge (hubs : list string) :
  forall g u v e,
    get_edge (remove_hubs g source target hubs) u v = Some e ->
    get_edge g u v = Some e.
Proof.
  induction hubs as [| h hubs IH]; intros g u v e H; [exact H |].
  rewrite remove_hubs_step in H. apply IH in H.
  destruct (_ && _); [| exact H].
  rewrite get_edge_remove_node in H.
  destruct (_ || _); [discriminate | exact H].
Qed.

(** An edge of the graph whose endpoints are nodes of the working copy is
    an edge of the working copy. *)
Lemma remove_hubs_keeps_edge (hubs : list string) :
  forall g u v e,
    get_edge g u v = Some e ->
    In u (node_keys (remove_hubs g source target hubs)) ->
    In v (node_keys (remove_hubs g source target hubs)) ->
    get_edge (remove_hubs g source target hubs) u v = Some e.
Proof.
  induction hubs as [| h hubs IH]; intros g u v e G Hu Hv; [exact G |].
  rewrite remove_hubs_step in *.
  apply IH; [| exact Hu | exact Hv].
  apply remove_hubs_nodes in Hu, Hv. destruct Hu as [Hu _], Hv as [Hv _].
  destruct (_ && _); [| exact G].
  apply node_keys_remove_node in Hu, Hv.
  rewrite get_edge_remove_node.
  destruct (String.eqb_spec h u) as [E | _]; [subst; tauto |].
  destruct (String.eqb_spec h v) as [E | _]; [subst; tauto |].
  exact G.
Qed.

Lemma remove_hubs_well_formed (hubs : list string) :
  forall g, well_formed g -> well_formed (remove_hubs g source target hubs).
Proof.
  induction hubs as [| h hubs IH]; intros g W; [exact W |].
  rewrite remove_hubs_step. apply IH.
  destruct (_ && _); [apply remove_node_well_formed |]; exact W.
Qed.

End RemoveHubs.

Local Open Scope list_scope.

(** The working copy of the removal analysis: its nodes are the nodes of
    the graph except the listed hubs other than source and target; its
    edges are the edges of the graph between two of its nodes, attributes
    unchanged; and it keeps the structural invariant of the graph. *)
Theorem remove_hubs_spec :
  forall (g : DiGraph) (source target : string) (hubs : list string),
    let temp := remove_hubs g source target hubs in
    (forall x, has_node temp x = true
               <-> has_node g x = true
                   /\ (x = source \/ x = target \/ ~ In x hubs))
    /\ (forall u v e, get_edge temp u v = Some e -> get_edge g u v = Some e)
    /\ (forall u v e, get_edge g u v = Some e ->
          has_node temp u = true -> has_node temp v = true ->
          get_edge temp u v = Some e)
    /\ (well_formed g -> well_formed temp).
Proof.
  intros g source target hubs temp.
  split; [intros x; rewrite !has_node_In; apply remove_hubs_nodes |].
  split; [apply remove_hubs_get_edge |].
  split; [| apply remove_hubs_well_formed].
  intros u v e G Hu Hv. apply has_node_In in Hu, Hv.
  apply remove_hubs_keeps_edge; assumption.
Qed.

Lemma path_metrics_path (g : DiGraph) (p : list string) (r : PathResult) :
  _calculate_path_metrics g p = Ok r -> path r = p.
Proof.
  unfold _calculate_path_metrics.
  destruct (legs_loop g p (mkTotals 0 0 0 [])); simpl; [| discriminate].
  intros E. inversion E. reflexivity.
Qed.

Lemma is_walk_subgraph (g g' : DiGraph) (p : list string) :
  (forall u v, has_edge g' u v = true -> has_edge g u v = true) ->
  is_walk g' p = true -> is_walk g p = true.
Proof.
  intros H. induction p as [| u p IH]; [reflexivity |].
  destruct p as [| v p]; [reflexivity |].
  change (has_edge g' u v && is_walk g' (v :: p) = true
          -> has_edge g u v && is_walk g (v :: p) = true).
  rewrite !andb_true_iff. intros [E W]. auto.
Qed.

Lemma walk_nodes (g : DiGraph) (p : list string) :
  well_formed g -> is_walk g p = true -> (2 <= List.length p)%nat ->
  forall x, In x p -> In x (node_keys g).
Proof.
  intros (_ & _ & EP). induction p as [| u p IH]; intros W L x Hx;
    [destruct Hx |].
  destruct p as [| v p]; [simpl in L; lia |].
  change (has_edge g u v && is_walk g (v :: p) = true) in W.
  apply andb_true_iff in W. destruct W as [E W].
  apply has_edge_In in E. destruct (EP u v E) as [Hu Hv].
  destruct Hx as [<- | Hx]; [exact Hu |].
  destruct p as [| y p].
  - destruct Hx as [<- | []]. exact Hv.
  - apply IH; [exact W | simpl; lia | exact Hx].
Qed.

(** ** From a walk to a simple path *)

Lemma leg_weight_nonneg (g : DiGraph) (w : edge_attr) (u v : string) :
  nonneg_weights g w = true ->
  0 <= match get_edge g u v with
       | Some e => edge_weight w e
       | None => 0
       end.
Proof.
  intros N. unfold get_edge.
  destruct (find (fun e => key_eqb (u, v) (fst e)) (edges g)) as [[k e] |] eqn:F;
    simpl; [| apply Qle_refl].
  apply find_some in F. destruct F as [I _].
  unfold nonneg_weights in N. rewrite forallb_forall in N.
  apply Qle_bool_iff. exact (N _ I).
Qed.

Lemma path_weight_nonneg (g : DiGraph) (w : edge_attr) (p : list string) :
  nonneg_weights g w = true -> 0 <= path_weight g w p.
Proof.
  intros N. induction p as [| u p IH]; [apply Qle_refl |].
  destruct p as [| v p]; [apply Qle_refl |].
  change (0 <= match get_edge g u v with
               | Some e => edge_weight w e
               | None => 0
               end + path_weight g w (v :: p)).
  pose proof (leg_weight_nonneg g w u v N). lra.
Qed.

Lemma path_weight_suffix (g : DiGraph) (w : edge_attr) (a l : list string) :
  nonneg_weights g w = true ->
  path_weight g w l <= path_weight g w (a ++ l).
Proof.
  intros N. induction a as [| x a IH]; [apply Qle_refl |].
  change ((x :: a) ++ l) with (x :: (a ++ l)).
  destruct (a ++ l) as [| y r] eqn:E.
  - exact IH.
  - change (path_weight g w l
            <= match get_edge g x y with
               | Some e => edge_weight w e
               | None => 0
               end + path_weight g w (y :: r)).
    pose proof (leg_weight_nonneg g w x y N). lra.
Qed.

Lemma is_walk_suffix (g : DiGraph) (a l : list string) :
  is_walk g (a ++ l) = true -> is_walk g l = true.
Proof.
  induction a as [| x a IH]; [auto |].
  change ((x :: a) ++ l) with (x :: (a ++ l)).
  destruct (a ++ l) as [| y r] eqn:E.
  - intros _. apply IH. reflexivity.
  - change (has_edge g x y && is_walk g (y :: r) = true -> is_walk g l = true).
    rewrite andb_true_iff. intros [_ W]. apply IH. exact W.
Qed.

Lemma ends_at_suffix (t x : string) (a b : list string) :
  ends_at t (a ++ x :: b) = ends_at t (x :: b).
Proof.
  induction a as [| y a IH]; [reflexivity |].
  change ((y :: a) ++ x :: b) with (y :: (a ++ x :: b)).
  destruct (a ++ x :: b) as [| z r] eqn:E; [destruct a; discriminate |].
  exact IH.
Qed.

(** With non-negative weights, a walk contains a simple path between the
    same endpoints that weighs no more. *)
Lemma walk_to_simple (g : DiGraph) (w : edge_attr) (s t : string)
    (p : list string) :
  nonneg_weights g w = true ->
  is_path g s t p ->
  exists q, simple_path g s t q /\ path_weight g w q <= path_weight g w p.
Proof.
  intros N. unfold simple_path, is_path. revert s.
  induction p as [| x p IH]; intros s H; [discriminate |].
  apply andb_true_iff in H. destruct H as [H W].
  apply andb_true_iff in H. destruct H as [St En].
  simpl in St. apply String.eqb_eq in St. subst x.
  destruct p as [| y r].
  - exists [s]. split; [| apply Qle_refl].
    split; [rewrite En, W; simpl; rewrite String.eqb_refl; reflexivity |].
    constructor; [simpl; tauto | constructor].
  - change (has_edge g s y && is_walk g (y :: r) = true) in W.
    apply andb_true_iff in W. destruct W as [E W].
    change (ends_at t (y :: r) = true) in En.
    destruct (IH y) as (q & (Pq & Nq) & Lq).
    { simpl starts_at. rewrite String.eqb_refl, En, W. reflexivity. }
    apply andb_true_iff in Pq. destruct Pq as [Pq Wq].
    apply andb_true_iff in Pq. destruct Pq as [Sq Eq].
    destruct (starts_at_inv _ _ Sq) as [q' ->].
    assert (Leg : 0 <= match get_edge g s y with
                       | Some e => edge_weight w e
                       | None => 0
                       end) by (apply leg_weight_nonneg; exact N).
    assert (PW : path_weight g w (s :: y :: r)
                 = match get_edge g s y with
                   | Some e => edge_weight w e
                   | None => 0
                   end + path_weight g w (y :: r)) by reflexivity.
    destruct (in_dec string_dec s (y :: q')) as [I | NI].
    + apply in_split in I. destruct I as (a & b & Eab).
      exists (s :: b). split; [split |].
      * simpl starts_at. rewrite String.eqb_refl.
        rewrite Eab in Eq, Wq. rewrite ends_at_suffix in Eq.
        apply is_walk_suffix in Wq. rewrite Eq, Wq. reflexivity.
      * rewrite Eab in Nq. exact (NoDup_app_remove_l _ _ Nq).
      * rewrite PW.
        pose proof (path_weight_suffix g w a (s :: b) N) as S.
        rewrite <- Eab in S. lra.
    + exists (s :: y :: q'). split; [split |].
      * simpl starts_at. rewrite String.eqb_refl.
        change (ends_at t (s :: y :: q')) with (ends_at t (y :: q')).
        change (is_walk g (s :: y :: q'))
          with (has_edge g s y && is_walk g (y :: q')).
        rewrite Eq, E, Wq. reflexivity.
      * constructor; assumption.
      * rewrite PW.
        change (path_weight g w (s :: y :: q'))
          with (match get_edge g s y with
                | Some e => edge_weight w e
                | None => 0
                end + path_weight g w (y :: q')).
        lra.
Qed.

Section RemovalFacts.

Context {nx : NetworkX}.

(** What a successful removal analysis was computed from. *)
Lemma analyze_hub_removal_inv (g : DiGraph) (s t : string)
    (hubs : list string) (i : Impact) :
  analyze_hub_removal g s t hubs = Ok i ->
  removed_hubs i = hubs
  /\ find_shortest_path g s t "time" None = Ok (original_path i)
  /\ path_exists i = is_some (alternative_path i)
  /\ match alternative_path i with
     | Some a =>
         nx_shortest_path (remove_hubs g s t hubs) s t attr_time_cost
         = Ok (path a)
         /\ _calculate_path_metrics (remove_hubs g s t hubs) (path a) = Ok a
     | None =>
         nx_shortest_path (remove_hubs g s t hubs) s t attr_time_cost
         = Raise NetworkXNoPath
     end.
Proof.
  unfold analyze_hub_removal.
  destruct (find_shortest_path g s t "time" None) as [o | e]; [| discriminate].
  cbn [bind].
  destruct (nx_shortest_path (remove_hubs g s t hubs) s t attr_time_cost)
    as [p | e] eqn:E.
  - destruct (_calculate_path_metrics (remove_hubs g s t hubs) p) as [a | e']
      eqn:M; cbn [bind]; [| discriminate].
    pose proof (path_metrics_path _ _ _ M) as P.
    destruct o; intros H; inversion H; subst i; simpl;
      rewrite P; auto.
  - destruct e; cbn [bind]; try discriminate.
    destruct o; intros H; inversion H; subst i; simpl; auto.
Qed.

(** The alternative route of a removal analysis is a route of the network
    from source to target that visits none of the removed hubs (source and
    target, never removed, apart). *)
Theorem alternative_path_avoids_removed_hubs :
  forall (g : DiGraph) (source target : string) (hubs : list string)
         (impact : Impact) (a : PathResult),
    well_formed g ->
    analyze_hub_removal g source target hubs = Ok impact ->
    alternative_path impact = Some a ->
    path_exists impact = true
    /\ is_path g source target (path a)
    /\ (forall h, In h hubs -> h <> source -> h <> target -> ~ In h (path a))
    /\ _calculate_path_metrics g (path a) = Ok a.
Proof.
  intros g s t hubs i a WF H A.
  destruct (analyze_hub_removal_inv g s t hubs i H) as (_ & _ & PE & Alt).
  rewrite A in PE, Alt. destruct Alt as [SP M].
  pose proof (shortest_path_is_path _ _ _ _ _ SP) as P.
  set (temp := remove_hubs g s t hubs) in *.
  assert (Sub : forall u v, has_edge temp u v = true -> has_edge g u v = true).
  { intros u v. rewrite !has_edge_get_edge.
    destruct (get_edge temp u v) as [e |] eqn:G; [| discriminate].
    rewrite (remove_hubs_get_edge s t hubs g u v e G). reflexivity. }
  unfold is_path in P. apply andb_true_iff in P. destruct P as [P W].
  apply andb_true_iff in P. destruct P as [St En].
  split; [exact PE |]. split; [| split].
  - unfold is_path. rewrite St, En, (is_walk_subgraph g temp _ Sub W).
    reflexivity.
  - intros h Hh Ns Nt I.
    destruct (path a) as [| x [| y r]] eqn:Pa.
    + destruct I.
    + destruct I as [<- | []]. simpl in St. apply String.eqb_eq in St.
      congruence.
    + assert (K : In h (node_keys temp)).
      { apply (walk_nodes temp (x :: y :: r));
          [apply remove_hubs_well_formed; exact WF | exact W
          | simpl; lia | exact I]. }
      apply remove_hubs_nodes in K. tauto.
  - (* the metrics read only the legs of the path, which are the same *)
    revert M. unfold _calculate_path_metrics.
    assert (L : forall p acc, is_walk temp p = true ->
                  legs_loop temp p acc = legs_loop g p acc).
    { clear - Sub. unfold temp in *. intros p.
      induction p as [| u p IH]; intros acc Wp; [reflexivity |].
      destruct p as [| v p]; [reflexivity |].
      change (has_edge (remove_hubs g s t hubs) u v
              && is_walk (remove_hubs g s t hubs) (v :: p) = true) in Wp.
      apply andb_true_iff in Wp. destruct Wp as [E Wp].
      rewrite has_edge_get_edge in E.
      change (legs_loop (remove_hubs g s t hubs) (u :: v :: p) acc)
        with (match get_edge (remove_hubs g s t hubs) u v with
              | None => Raise KeyError
              | Some e =>
                  legs_loop (remove_hubs g s t hubs) (v :: p)
                    (mkTotals (acc_distance acc + distance e)
                       (acc_time acc + time_cost e)
                       (acc_cost acc + monetary_cost e)
                       (acc_segments acc ++ [leg_segment u v e]))
              end).
      change (legs_loop g (u :: v :: p) acc)
        with (match get_edge g u v with
              | None => Raise KeyError
              | Some e =>
                  legs_loop g (v :: p)
                    (mkTotals (acc_distance acc + distance e)
                       (acc_time acc + time_cost e)
                       (acc_cost acc + monetary_cost e)
                       (acc_segments acc ++ [leg_segment u v e]))
              end).
      destruct (get_edge (remove_hubs g s t hubs) u v) as [e |] eqn:G;
        [| discriminate].
      rewrite (remove_hubs_get_edge s t hubs g u v e G).
      apply IH. exact Wp. }
    rewrite (L _ _ W). auto.
Qed.

(** Removing hubs cannot make the flight itself faster: when the analysis
    finds an alternative, in a network with non-negative time costs, it has
    found an original path too, and the legs of the original sum to no more
    time than the legs of the alternative. *)
Theorem removal_never_shortens_flight_time :
  forall (g : DiGraph) (source target : string) (hubs : list string)
         (impact : Impact) (a : PathResult),
    nonneg_weights g attr_time_cost = true ->
    analyze_hub_removal g source target hubs = Ok impact ->
    alternative_path impact = Some a ->
    exists o,
      original_path impact = Some o
      /\ path_weight g attr_time_cost (path o)
         <= path_weight g attr_time_cost (path a).
Proof.
  intros g s t hubs i a N H A.
  destruct (analyze_hub_removal_inv g s t hubs i H) as (_ & F & _ & Alt).
  rewrite A in Alt. destruct Alt as [SP _].
  set (temp := remove_hubs g s t hubs) in *.
  assert (Known : has_node g s = true /\ has_node g t = true).
  { assert (K : has_node temp s = true /\ has_node temp t = true).
    { destruct (has_node temp s) eqn:Hs, (has_node temp t) eqn:Ht; auto;
        rewrite (shortest_path_unknown temp s t attr_time_cost) in SP;
        auto; discriminate. }
    destruct K as [Ks Kt]. apply has_node_In, remove_hubs_nodes in Ks, Kt.
    rewrite !has_node_In. tauto. }
  destruct Known as [Hs Ht].
  pose proof (shortest_path_is_path _ _ _ _ _ SP) as P.
  assert (Pg : is_path g s t (path a)).
  { unfold is_path in *. apply andb_true_iff in P. destruct P as [P W].
    rewrite P. simpl. apply (is_walk_subgraph g temp); [| exact W].
    intros u v. rewrite !has_edge_get_edge.
    destruct (get_edge temp u v) as [e |] eqn:G; [| discriminate].
    rewrite (remove_hubs_get_edge s t hubs g u v e G). reflexivity. }
  destruct (walk_to_simple g attr_time_cost s t (path a) N Pg) as (q & Sq & Lq).
  destruct (shortest_path_outcome g s t attr_time_cost Hs Ht) as [[po E] | E].
  - rewrite (find_shortest_path_Ok g s t "time" None po Hs Ht E) in F.
    pose proof (is_path_walk _ _ _ _ (shortest_path_is_path _ _ _ _ _ E)) as W.
    destruct (path_metrics_walk g po W) as (o & M & Po & _).
    rewrite M in F. cbn [bind] in F. inversion F as [F'].
    exists o. split; [reflexivity |]. rewrite Po.
    pose proof (shortest_path_optimal g s t attr_time_cost po N E q Sq). lra.
  - exfalso. exact (shortest_path_none g s t attr_time_cost E q Sq).
Qed.

(** Endpoints the network does not know: the shortest-path search returns
    absent, the k-shortest search returns the empty list, and the removal
    analysis, which searches the working copy with no check of its own,
    raises [NodeNotFound]. *)
Theorem unknown_endpoint_behaviour :
  forall (g : DiGraph) (source target c : string) (max_stops : option Z)
         (k : Z) (hubs : list string),
    has_node g source = false \/ has_node g target = false ->
    find_shortest_path g source target c max_stops = Ok None
    /\ find_k_shortest_paths g source target k c = Ok []
    /\ analyze_hub_removal g source target hubs = Raise NodeNotFound.
Proof.
  intros g s t c m k hubs U.
  assert (G : negb (has_node g s) || negb (has_node g t) = true).
  { destruct U as [-> | ->]; simpl; [reflexivity | apply orb_true_r]. }
  assert (F : forall c' m', find_shortest_path g s t c' m' = Ok None).
  { intros c' m'. unfold find_shortest_path. rewrite G. reflexivity. }
  split; [apply F |]. split.
  - unfold find_k_shortest_paths. rewrite G. reflexivity.
  - unfold analyze_hub_removal. rewrite F. cbn [bind].
    rewrite (shortest_path_unknown (remove_hubs g s t hubs) s t attr_time_cost);
      [reflexivity |].
    destruct U as [U | U]; [left | right];
      (destruct (has_node (remove_hubs g s t hubs) _) eqn:T; [| reflexivity];
       apply has_node_In, remove_hubs_nodes in T; destruct T as [T _];
       apply has_node_In in T; congruence).
Qed.

End RemovalFacts.

(* ================================================================== *)
(** * More about the metrics and the searches *)

Lemma legs_loop_broken (g : DiGraph) (p : list string) :
  is_walk g p = false -> forall acc, legs_loop g p acc = Raise KeyError.
Proof.
  induction p as [| u p IH]; intros W acc; [discriminate |].
  destruct p as [| v p]; [discriminate |].
  change (has_edge g u v && is_walk g (v :: p) = false) in W.
  change (legs_loop g (u :: v :: p) acc)
    with (match get_edge g u v with
          | None => Raise KeyError
          | Some e =>
              legs_loop g (v :: p)
                (mkTotals (acc_distance acc + distance e)
                   (acc_time acc + time_cost e)
                   (acc_cost acc + monetary_cost e)
                   (acc_segments acc ++ [leg_segment u v e]))
          end).
  rewrite has_edge_get_edge in W.
  destruct (get_edge g u v) as [e |]; [| reflexivity].
  simpl in W. apply IH. exact W.
Qed.

Lemma leg_segments_ends (g : DiGraph) (p : list string) :
  is_walk g p = true ->
  map seg_from (leg_segments g p) = removelast p
  /\ map seg_to (leg_segments g p) = tl p.
Proof.
  induction p as [| u p IH]; intros W; [split; reflexivity |].
  destruct p as [| v p]; [split; reflexivity |].
  change (has_edge g u v && is_walk g (v :: p) = true) in W.
  apply andb_true_iff in W. destruct W as [E W].
  rewrite has_edge_get_edge in E.
  change (leg_segments g (u :: v :: p))
    with (match get_edge g u v with
          | Some e => leg_segment u v e :: leg_segments g (v :: p)
          | None => leg_segments g (v :: p)
          end).
  destruct (get_edge g u v) as [e |]; [| discriminate].
  destruct (IH W) as [F T].
  change (removelast (u :: v :: p)) with (u :: removelast (v :: p)).
  cbn [map tl seg_from seg_to leg_segment]. rewrite F, T.
  split; [reflexivity |]. destruct p; reflexivity.
Qed.

(** The metrics of a node sequence are computed exactly when every
    consecutive pair is an edge, and raise [KeyError] otherwise (a sequence
    of fewer than two nodes has no pair, so it never raises).  When they
    are computed there is one segment per leg, from each node of the path
    to the next. *)
Theorem path_metrics_outcome :
  forall (g : DiGraph) (p : list string),
    (is_walk g p = false -> _calculate_path_metrics g p = Raise KeyError)
    /\ (is_walk g p = true ->
        exists r,
          _calculate_path_metrics g p = Ok r
          /\ path r = p
          /\ List.length (segments r) = (List.length p - 1)%nat
          /\ map seg_from (segments r) = removelast p
          /\ map seg_to (segments r) = tl p).
Proof.
  intros g p. split.
  - intros W. unfold _calculate_path_metrics.
    rewrite (legs_loop_broken g p W). reflexivity.
  - intros W. destruct (path_metrics_walk g p W) as (r & R & P & _ & S).
    exists r. destruct (leg_segments_ends g p W) as [F T].
    rewrite S. repeat split; auto.
    rewrite <- (length_map seg_to), T. destruct p; simpl; lia.
Qed.

Section SearchMore.

Context {nx : NetworkX}.

Lemma find_shortest_path_facts :
  forall (g : DiGraph) (source target c : string) (max_stops : option Z),
    (exists o, find_shortest_path g source target c max_stops = Ok o)
    /\ forall r,
         find_shortest_path g source target c max_stops = Ok (Some r) ->
         has_node g source = true /\ has_node g target = true
         /\ is_path g source target (path r)
         /\ _calculate_path_metrics g (path r) = Ok r
         /\ stops r = stop_count (path r)
         /\ (forall m, max_stops = Some m -> (stops r <= m)%Z)
         /\ (nonneg_weights g (weight_map_get c) = true ->
             forall q, is_path g source target q ->
                       path_weight g (weight_map_get c) (path r)
                       <= path_weight g (weight_map_get c) q).
Proof.
  intros g s t c m.
  destruct (has_node g s) eqn:Hs;
    [| split; [exists None | intros r]; unfold find_shortest_path;
       rewrite Hs; simpl; [reflexivity | discriminate]].
  destruct (has_node g t) eqn:Ht;
    [| split; [exists None | intros r]; unfold find_shortest_path;
       rewrite Hs, Ht; simpl; [reflexivity | discriminate]].
  destruct (shortest_path_outcome g s t (weight_map_get c) Hs Ht)
    as [[p E] | E].
  - rewrite (find_shortest_path_Ok g s t c m p Hs Ht E).
    pose proof (shortest_path_is_path _ _ _ _ _ E) as P.
    destruct (path_metrics_walk g p (is_path_walk _ _ _ _ P))
      as (r0 & R & Pr & Sr & _).
    rewrite R. cbn [bind].
    assert (Good : forall r, Ok (Some r0) = Ok (Some r) ->
              (forall k, m = Some k -> (stop_count p <= k)%Z) ->
              true = true /\ true = true
              /\ is_path g s t (path r)
              /\ _calculate_path_metrics g (path r) = Ok r
              /\ stops r = stop_count (path r)
              /\ (forall k, m = Some k -> (stops r <= k)%Z)
              /\ (nonneg_weights g (weight_map_get c) = true ->
                  forall q, is_path g s t q ->
                            path_weight g (weight_map_get c) (path r)
                            <= path_weight g (weight_map_get c) q)).
    { intros r Er Lim. inversion Er; subst r0. rewrite Pr.
      split; [reflexivity |]. split; [reflexivity |].
      split; [exact P |]. split; [exact R |]. split; [exact Sr |].
      split; [intros k Hk; rewrite Sr; apply Lim; exact Hk |].
      intros N q Q.
      destruct (walk_to_simple g (weight_map_get c) s t q N Q) as (q' & Sq & Lq).
      pose proof (shortest_path_optimal g s t _ p N E q' Sq). lra. }
    destruct m as [k |].
    + destruct (Z.gtb_spec (stop_count p) k) as [G | L].
      * split; [eauto | discriminate].
      * split; [eauto |]. intros r Er. apply Good; [exact Er |].
        intros k' Hk'. inversion Hk'; subst. exact L.
    + split; [eauto |]. intros r Er. apply Good; [exact Er | discriminate].
  - rewrite (find_shortest_path_NoPath g s t c m Hs Ht E).
    split; [eauto | discriminate].
Qed.

(** The shortest-path search never raises.  A result it returns is the
    metrics of a path of the network from source to target, within the stop
    limit when there is one; with non-negative weights no path of the
    network between the two, simple or not, weighs less. *)
Theorem find_shortest_path_result :
  forall (g : DiGraph) (source target c : string) (max_stops : option Z),
    (exists o, find_shortest_path g source target c max_stops = Ok o)
    /\ forall r,
         find_shortest_path g source target c max_stops = Ok (Some r) ->
         has_node g source = true /\ has_node g target = true
         /\ is_path g source target (path r)
         /\ _calculate_path_metrics g (path r) = Ok r
         /\ stops r = stop_count (path r)
         /\ (forall m, max_stops = Some m -> (stops r <= m)%Z)
         /\ (nonneg_weights g (weight_map_get c) = true ->
             forall q, is_path g source target q ->
                       path_weight g (weight_map_get c) (path r)
                       <= path_weight g (weight_map_get c) q).
Proof.
  intros g source target c max_stops.
  destruct (find_shortest_path_facts g source target c max_stops) as [A B].
  split; [exact A | exact B].
Qed.

Lemma k_paths_loop_small_k (g : DiGraph) (k : Z) (gen : list (list string)) :
  (k <= 1)%Z -> k_paths_loop g k gen [] = k_paths_loop g 1 gen [].
Proof.
  intros K. induction gen as [| p rest IH]; [reflexivity |].
  cbn [k_paths_loop].
  destruct (len p - 2 >? Config.MAX_STOPS)%Z; [exact IH |].
  destruct (_calculate_path_metrics g p) as [r |]; [| reflexivity].
  cbn [bind app]. change (len [r]) with 1%Z.
  destruct (Z.geb_spec 1 k) as [_ | L]; [reflexivity | lia].
Qed.

(** Asked for zero paths, or a negative number of them, the k-shortest
    search does what it does for one: the count is checked only after a
    path has been added. *)
Theorem k_shortest_paths_small_k :
  forall (g : DiGraph) (source target : string) (k : Z) (c : string),
    (k <= 0)%Z ->
    find_k_shortest_paths g source target k c
    = find_k_shortest_paths g source target 1 c.
Proof.
  intros g s t k c K. unfold find_k_shortest_paths.
  destruct (negb (has_node g s) || negb (has_node g t)); [reflexivity |].
  apply k_paths_loop_small_k. lia.
Qed.

(** No result of the k-shortest search weighs less than the path the
    shortest-path search finds, for any [k], in a network with non-negative
    weights. *)
Theorem k_shortest_paths_bounded_below :
  forall (g : DiGraph) (source target : string) (k : Z) (c : string)
         (res : list PathResult) (p : list string),
    nonneg_weights g (weight_map_get c) = true ->
    find_k_shortest_paths g source target k c = Ok res ->
    nx_shortest_path g source target (weight_map_get c) = Ok p ->
    forall r, In r res ->
              path_weight g (weight_map_get c) p
              <= path_weight g (weight_map_get c) (path r).
Proof.
  intros g s t k c res p N F E r Hr.
  revert F. unfold find_k_shortest_paths.
  destruct (has_node g s) eqn:Hs; [| simpl; intros F; inversion F; subst; destruct Hr].
  destruct (has_node g t) eqn:Ht; [| simpl; intros F; inversion F; subst; destruct Hr].
  simpl. intros F.
  assert (F1 : exists k', (1 <= k')%Z
                 /\ k_paths_loop g k'
                      (nx_shortest_simple_paths g s t (weight_map_get c)) []
                    = Ok res).
  { destruct (Z_le_gt_dec k 1) as [L | G].
    - exists 1%Z. split; [lia |].
      rewrite <- (k_paths_loop_small_k g k _ L). exact F.
    - exists k. split; [lia | exact F]. }
  destruct F1 as (k' & K' & F').
  assert (Walks : forall q, In q (nx_shortest_simple_paths g s t (weight_map_get c)) ->
                            is_walk g q = true).
  { intros q Hq. apply (simple_paths_complete g s t _ q Hs Ht N) in Hq.
    destruct Hq as [Q _]. exact (is_path_walk _ _ _ _ Q). }
  destruct (k_paths_loop_spec g k' _ Walks []) as (new & E' & P & _).
  { unfold len. simpl. lia. }
  rewrite F' in E'. inversion E'; subst res. simpl in Hr.
  assert (I : In (path r) (paths_of new)) by (apply in_map; exact Hr).
  rewrite P in I. apply In_firstn in I. apply filter_In in I.
  destruct I as [I _].
  apply (simple_paths_complete g s t _ _ Hs Ht N) in I.
  exact (shortest_path_optimal g s t _ p N E _ I).
Qed.

End SearchMore.

(* ================================================================== *)
(** * Hub connectivity *)







(* ================================================================== *)
(** * The route handlers *)

Lemma path_of_distinct_ends (s t : string) (p : list string) :
  starts_at s p = true -> ends_at t p = true -> s <> t ->
  (2 <= List.length p)%nat.
Proof.
  intros St En N. destruct p as [| x [| y r]]; [discriminate | | simpl; lia].
  simpl in St, En. apply String.eqb_eq in St, En. congruence.
Qed.

Section ApiFacts.

Context {nx : NetworkX}.
Variable upper : string -> string.

Lemma details_of_codes (airports : list Airport) (p : list string) :
  (forall a, In a airports -> upper (iata a) = iata a) ->
  (forall n, In n p -> In n (map iata airports)) ->
  map Api.pd_iata (Api.details_of upper airports p) = p.
Proof.
  intros U. induction p as [| n p IH]; intros K; [reflexivity |].
  assert (Hn : In n (map iata airports)) by (apply K; left; reflexivity).
  assert (Un : upper n = n).
  { apply in_map_iff in Hn. destruct Hn as (a & <- & Ha). apply U. exact Ha. }
  apply valid_iata_In in Hn. destruct (valid_iata_row _ _ Hn) as (a & R & _).
  unfold Api.details_of. simpl.
  unfold Api.get_airport_by_iata at 1. rewrite Un, R. simpl.
  f_equal. apply IH. intros m Hm. apply K. right. exact Hm.
Qed.

Lemma analyze_hub_removal_known (g : DiGraph) (s t : string)
    (hubs : list string) :
  has_node g s = true -> has_node g t = true ->
  exists i, analyze_hub_removal g s t hubs = Ok i.
Proof.
  intros Hs Ht. unfold analyze_hub_removal.
  destruct (find_shortest_path_facts g s t "time" None) as [[o ->] _].
  cbn [bind].
  assert (Ks : has_node (remove_hubs g s t hubs) s = true).
  { apply has_node_In, remove_hubs_nodes. apply has_node_In in Hs. auto. }
  assert (Kt : has_node (remove_hubs g s t hubs) t = true).
  { apply has_node_In, remove_hubs_nodes. apply has_node_In in Ht. auto. }
  destruct (shortest_path_outcome _ s t attr_time_cost Ks Kt) as [[p E] | E];
    rewrite E.
  - pose proof (is_path_walk _ _ _ _ (shortest_path_is_path _ _ _ _ _ E)) as W.
    destruct (path_metrics_walk _ p W) as (a & M & _). rewrite M. cbn [bind].
    destruct o; eauto.
  - cbn [bind]. destruct o; eauto.
Qed.

(** The route handler answers 404 for an unknown source or destination
    (after upper-casing), 400 when the two are the same airport, 404 when
    the search returns absent, and lets no exception through.  A route it
    returns joins two distinct airports of the network, so it has at least
    two nodes and no negative stop count: the one-node path of the engine
    is out of a caller's reach.  When the airport codes loaded are in upper
    case, the details list has one entry per node of the path, in order. *)
Theorem find_route_outcomes :
  forall (geodesic_km : Q -> Q -> Q -> Q -> Q)
         (airports : list Airport) (routes : list Route)
         (request : Api.RouteRequest),
    let g := _build_graph geodesic_km airports routes in
    let s := upper (Api.rr_source request) in
    let d := upper (Api.rr_destination request) in
    match Api.find_route upper airports g request with
    | Api.Returned resp =>
        s <> d
        /\ find_shortest_path g s d (Api.rr_cost_type request)
             (Api.rr_max_stops request) = Ok (Some (Api.route resp))
        /\ is_path g s d (path (Api.route resp))
        /\ (2 <= List.length (path (Api.route resp)))%nat
        /\ (0 <= stops (Api.route resp))%Z
        /\ ((forall a, In a airports -> upper (iata a) = iata a) ->
            map Api.pd_iata (Api.path_details resp) = path (Api.route resp))
    | Api.HTTPException status _ =>
        (status = 400%Z /\ s = d /\ has_node g s = true)
        \/ (status = 404%Z
            /\ (has_node g s = false \/ has_node g d = false
                \/ find_shortest_path g s d (Api.rr_cost_type request)
                     (Api.rr_max_stops request) = Ok None))
    | Api.Uncaught _ => False
    end.
Proof.
  intros geodesic_km airports routes request g s d.
  unfold Api.find_route. fold s d.
  destruct (has_node g s) eqn:Hs; cbn [negb]; [| right; auto].
  destruct (has_node g d) eqn:Hd; cbn [negb]; [| right; auto].
  destruct (String.eqb_spec s d) as [E | N]; [left; auto |].
  destruct (find_shortest_path_facts g s d (Api.rr_cost_type request)
              (Api.rr_max_stops request)) as [[o F] Good].
  rewrite F. destruct o as [r |]; [| right; auto].
  destruct (Good r F) as (_ & _ & P & _ & Sr & _).
  cbn [Api.route Api.path_details].
  assert (P' := P). unfold is_path in P'.
  apply andb_true_iff in P'. destruct P' as [P' W].
  apply andb_true_iff in P'. destruct P' as [St En].
  pose proof (path_of_distinct_ends s d (path r) St En N) as L.
  split; [exact N |]. split; [reflexivity |]. split; [exact P |].
  split; [exact L |]. split.
  - rewrite Sr. unfold stop_count, len. lia.
  - intros U. apply details_of_codes; [exact U |].
    intros n Hn. apply (build_graph_node_keys geodesic_km airports routes).
    apply (walk_nodes g (path r)); auto.
    apply build_graph_well_formed.
Qed.

(** The removal handler answers 404 for an unknown source or destination,
    400 when the two are the same airport, and otherwise returns the
    analysis of the engine for the upper-cased codes: behind its checks the
    analysis never raises, whatever hubs are listed. *)
Theorem removal_handler_outcomes :
  forall (airports : list Airport) (g : DiGraph)
         (request : Api.HubRemovalRequest),
    let s := upper (Api.hr_source request) in
    let d := upper (Api.hr_destination request) in
    let hubs := map upper (Api.hr_hubs_to_remove request) in
    match Api.analyze_hub_removal upper airports g request with
    | Api.Returned resp =>
        s <> d /\ has_node g s = true /\ has_node g d = true
        /\ analyze_hub_removal g s d hubs = Ok (Api.analysis resp)
        /\ removed_hubs (Api.analysis resp) = hubs
    | Api.HTTPException status _ =>
        (status = 400%Z /\ s = d /\ has_node g s = true)
        \/ (status = 404%Z
            /\ (has_node g s = false \/ has_node g d = false))
    | Api.Uncaught _ => False
    end.
Proof.
  intros airports g request s d hubs.
  unfold Api.analyze_hub_removal. fold s d hubs.
  destruct (has_node g s) eqn:Hs; cbn [negb]; [| right; auto].
  destruct (has_node g d) eqn:Hd; cbn [negb]; [| right; auto].
  destruct (String.eqb_spec s d) as [E | N]; [left; auto |].
  destruct (analyze_hub_removal_known g s d hubs Hs Hd) as [i A].
  rewrite A. cbn [Api.analysis].
  destruct (analyze_hub_removal_inv g s d hubs i A) as (R & _).
  auto.
Qed.

(** The alternative-hubs handler never returns a list: it answers 404 for
    an unknown source, destination or primary hub, and for three known
    airports the [AttributeError] of the engine goes through uncaught. *)
Theorem alternative_hubs_handler_never_returns :
  forall (airports : list Airport) (g : DiGraph)
         (request : Api.AlternativeHubsRequest),
    match Api.find_alternative_hubs upper airports g request with
    | Api.Returned _ => False
    | Api.HTTPException status _ =>
        status = 404%Z
        /\ (has_node g (upper (Api.ar_source request)) = false
            \/ has_node g (upper (Api.ar_destination request)) = false
            \/ has_node g (upper (Api.ar_primary_hub request)) = false)
    | Api.Uncaught e =>
        e = AttributeError "_get_country_by_iata"
        /\ has_node g (upper (Api.ar_source request)) = true
        /\ has_node g (upper (Api.ar_destination request)) = true
        /\ has_node g (upper (Api.ar_primary_hub request)) = true
    end.
Proof.
  intros airports g request. unfold Api.find_alternative_hubs.
  destruct (has_node g (upper (Api.ar_source request))); cbn [negb];
    [| auto].
  destruct (has_node g (upper (Api.ar_destination request))); cbn [negb];
    [| auto].
  destruct (has_node g (upper (Api.ar_primary_hub request))); cbn [negb];
    [| auto 6].
  unfold find_alternative_hubs. rewrite get_country_by_iata_missing.
  cbn [bind]. auto.
Qed.

End ApiFacts.

Section AlternativeRoutesFacts.

Context {nx : NetworkX}.
Variable upper : string -> string.

Lemma find_k_shortest_paths_known (g : DiGraph) (s t : string) (k : Z)
    (c : string) :
  has_node g s = true -> has_node g t = true ->
  nonneg_weights g (weight_map_get c) = true -> (1 <= k)%Z ->
  exists res,
    find_k_shortest_paths g s t k c = Ok res
    /\ (len res <= k)%Z
    /\ forall r, In r res ->
         simple_path g s t (path r)
         /\ (stop_count (path r) <= Config.MAX_STOPS)%Z
         /\ _calculate_path_metrics g (path r) = Ok r.
Proof.
  intros Hs Ht N K.
  assert (Walks : forall q, In q (nx_shortest_simple_paths g s t (weight_map_get c)) ->
                            is_walk g q = true).
  { intros q Hq. apply (simple_paths_complete g s t _ q Hs Ht N) in Hq.
    destruct Hq as [Q _]. exact (is_path_walk _ _ _ _ Q). }
  destruct (k_paths_loop_spec g k _ Walks []) as (res & E & P & M).
  { unfold len. simpl. lia. }
  exists res. split; [unfold find_k_shortest_paths; rewrite Hs, Ht; exact E |].
  change (len (@nil PathResult)) with 0%Z in P. rewrite Z.sub_0_r in P.
  split.
  - assert (L : len res = Z.of_nat (List.length (paths_of res)))
      by (unfold len, paths_of; rewrite length_map; reflexivity).
    rewrite L, P, length_firstn. lia.
  - intros r Hr.
    assert (I : In (path r) (paths_of res)) by (apply in_map; exact Hr).
    rewrite P in I. apply In_firstn in I. apply filter_In in I.
    destruct I as [I V].
    apply (simple_paths_complete g s t _ _ Hs Ht N) in I.
    split; [exact I |]. split; [apply Z.leb_le; exact V | apply M; exact Hr].
Qed.

(** For a network built with a non-negative distance and a request for
    [k >= 1] routes, the alternatives handler lets no exception through: it
    answers 404 for an unknown source or destination, 400 when the two are
    the same airport, 404 when the engine finds no route, and otherwise
    returns between 1 and [k] routes with their count, each a path of the
    network between the two distinct airports with at least two nodes and
    at most [MAX_STOPS] stops. *)
Theorem find_alternative_routes_outcomes :
  forall (geodesic_km : Q -> Q -> Q -> Q -> Q)
         (airports : list Airport) (routes : list Route)
         (request : Api.RouteRequest),
    (forall a b c d, 0 <= geodesic_km a b c d) ->
    (1 <= Api.rr_k_paths request)%Z ->
    let g := _build_graph geodesic_km airports routes in
    let s := upper (Api.rr_source request) in
    let d := upper (Api.rr_destination request) in
    match find_alternative_routes upper airports g request with
    | Api.Returned resp =>
        s <> d
        /\ alt_count resp = len (alt_routes resp)
        /\ (1 <= alt_count resp <= Api.rr_k_paths request)%Z
        /\ find_k_shortest_paths g s d (Api.rr_k_paths request)
             (Api.rr_cost_type request)
           = Ok (map Api.route (alt_routes resp))
        /\ forall r, In r (alt_routes resp) ->
             is_path g s d (path (Api.route r))
             /\ (2 <= List.length (path (Api.route r)))%nat
             /\ (0 <= stops (Api.route r) <= Config.MAX_STOPS)%Z
    | Api.HTTPException status _ =>
        (status = 400%Z /\ s = d /\ has_node g s = true)
        \/ (status = 404%Z
            /\ (has_node g s = false \/ has_node g d = false
                \/ find_k_shortest_paths g s d (Api.rr_k_paths request)
                     (Api.rr_cost_type request) = Ok []))
    | Api.Uncaught _ => False
    end.
Proof.
  intros geodesic_km airports routes request G K g s d.
  unfold find_alternative_routes. fold s d.
  destruct (has_node g s) eqn:Hs; cbn [negb]; [| right; auto].
  destruct (has_node g d) eqn:Hd; cbn [negb]; [| right; auto].
  destruct (String.eqb_spec s d) as [E | N]; [left; auto |].
  destruct (find_k_shortest_paths_known g s d (Api.rr_k_paths request)
              (Api.rr_cost_type request) Hs Hd
              (build_graph_nonneg_edges geodesic_km airports routes _ G) K)
    as (res & F & L & Good).
  rewrite F. destruct res as [| r0 rest]; [right; auto |].
  cbn [alt_count alt_routes].
  set (detailed := map (fun r => Api.mkRouteResponse r
                          (Api.details_of upper airports (path r)))
                       (r0 :: rest)).
  assert (Back : map Api.route detailed = r0 :: rest).
  { unfold detailed. rewrite map_map. simpl. f_equal. apply map_id. }
  assert (Len : len detailed = len (r0 :: rest)).
  { unfold len, detailed. rewrite length_map. reflexivity. }
  split; [exact N |]. split; [reflexivity |].
  split; [rewrite Len; split; [unfold len; simpl; lia | exact L] |].
  split; [rewrite Back; reflexivity |].
  intros r Hr.
  assert (I : In (Api.route r) (r0 :: rest)).
  { rewrite <- Back. apply in_map. exact Hr. }
  destruct (Good _ I) as ((P & _) & S & M).
  assert (P' := P). unfold is_path in P'.
  apply andb_true_iff in P'. destruct P' as [P' W].
  apply andb_true_iff in P'. destruct P' as [St En].
  pose proof (path_of_distinct_ends s d _ St En N) as L2.
  destruct (path_metrics_walk g _ W) as (r' & M' & _ & Sr & _).
  rewrite M in M'. inversion M'; subst r'.
  split; [exact P |]. split; [exact L2 |].
  rewrite Sr. unfold stop_count, len in *. lia.
Qed.

End AlternativeRoutesFacts.

Lemma alternative_routes_witness :
  exists resp,
    find_alternative_routes (nx := reference_networkx) string_upper
      example_airports example_network
      (Api.mkRouteRequest "aaa" "ddd" "time" None 5) = Api.Returned resp
    /\ alt_count resp = 2%Z.
Proof.
  pose proof (@find_alternative_routes_outcomes reference_networkx string_upper
                taxicab example_airports example_routes
                (Api.mkRouteRequest "aaa" "ddd" "time" None 5)
                taxicab_nonneg ltac:(simpl; lia)) as H.
  cbv zeta in H. fold example_network in H.
  destruct (find_alternative_routes (nx := reference_networkx) string_upper
              example_airports example_network
              (Api.mkRouteRequest "aaa" "ddd" "time" None 5))
    as [resp | st dt | e] eqn:E.
  - exists resp. split; [reflexivity |].
    destruct H as (_ & C & _ & F & _). rewrite C.
    assert (L : len (map Api.route (alt_routes resp)) = 2%Z).
    { apply (f_equal (fun o => match o with
                               | Ok l => len l
                               | Raise _ => 0%Z
                               end)) in F.
      cbv beta iota in F. rewrite <- F. vm_compute. reflexivity. }
    unfold len in *. rewrite length_map in L. exact L.
  - exfalso. vm_compute in E. discriminate E.
  - destruct H.
Defined.

(* ================================================================== *)
(** * The rest of the code on the example networks *)

Lemma example_network_well_formed : well_formed example_network.
Proof. exact (build_graph_well_formed taxicab example_airports example_routes). Qed.

Lemma edge_attributes_witness :
  exists r,
    In r example_routes
    /\ source_airport r = "AAA" /\ destination_airport r = "BBB"
    /\ edge_airline (mkEdge 800 (800 # 800) (800 # 10) "XA") = airline r.
Proof.
  destruct (build_graph_edge_attributes taxicab example_airports example_routes
              "AAA" "BBB" (mkEdge 800 (800 # 800) (800 # 10) "XA") eq_refl)
    as (sa & da & r & _ & _ & I & S & D & _ & _ & _ & A).
  exists r. auto.
Defined.

Example example_graph_stats :
  get_graph_stats example_network = StatsOk (mkStats 5 5 2)
  /\ get_graph_stats (_build_graph taxicab [] example_routes) = ZeroDivisionError.
Proof. split; vm_compute; reflexivity. Qed.

Lemma alternative_path_witness :
  exists i a,
    analyze_hub_removal (nx := reference_networkx)
      example_network "AAA" "DDD" ["BBB"] = Ok i
    /\ alternative_path i = Some a
    /\ ~ In "BBB" (path a)
    /\ is_path example_network "AAA" "DDD" (path a).
Proof.
  assert (H : match analyze_hub_removal (nx := reference_networkx)
                      example_network "AAA" "DDD" ["BBB"] with
              | Ok i => is_some (alternative_path i)
              | Raise _ => false
              end = true) by (vm_compute; reflexivity).
  destruct (analyze_hub_removal (nx := reference_networkx)
              example_network "AAA" "DDD" ["BBB"]) as [i | e] eqn:E;
    [| discriminate H].
  destruct (alternative_path i) as [a |] eqn:A; [| discriminate H].
  destruct (@alternative_path_avoids_removed_hubs reference_networkx
              example_network "AAA" "DDD" ["BBB"] i a
              example_network_well_formed E A) as (_ & P & Av & _).
  exists i, a. split; [reflexivity |]. split; [exact A |].
  split; [| exact P].
  apply (Av "BBB"); [left; reflexivity | |]; intros D; discriminate D.
Defined.

Lemma removal_flight_time_witness :
  exists i o a,
    analyze_hub_removal (nx := reference_networkx)
      example_network "AAA" "DDD" ["BBB"] = Ok i
    /\ original_path i = Some o /\ alternative_path i = Some a
    /\ path_weight example_network attr_time_cost (path o)
       <= path_weight example_network attr_time_cost (path a).
Proof.
  assert (H : match analyze_hub_removal (nx := reference_networkx)
                      example_network "AAA" "DDD" ["BBB"] with
              | Ok i => is_some (alternative_path i)
              | Raise _ => false
              end = true) by (vm_compute; reflexivity).
  destruct (analyze_hub_removal (nx := reference_networkx)
              example_network "AAA" "DDD" ["BBB"]) as [i | e] eqn:E;
    [| discriminate H].
  destruct (alternative_path i) as [a |] eqn:A; [| discriminate H].
  destruct (@removal_never_shortens_flight_time reference_networkx
              example_network "AAA" "DDD" ["BBB"] i a eq_refl E A)
    as (o & O & L).
  exists i, o, a. auto.
Defined.

Lemma unknown_endpoint_witness :
  find_shortest_path (nx := reference_networkx)
    example_network "ZZZ" "AAA" "time" None = Ok None
  /\ analyze_hub_removal (nx := reference_networkx)
       example_network "ZZZ" "AAA" ["BBB"] = Raise NodeNotFound.
Proof.
  destruct (@unknown_endpoint_behaviour reference_networkx
              example_network "ZZZ" "AAA" "time" None 5%Z ["BBB"]
              (or_introl eq_refl)) as (F & _ & A).
  split; assumption.
Defined.

Lemma small_k_witness :
  find_k_shortest_paths (nx := reference_networkx)
    example_network "AAA" "DDD" 0 "time"
  = find_k_shortest_paths (nx := reference_networkx)
      example_network "AAA" "DDD" 1 "time".
Proof.
  apply (@k_shortest_paths_small_k reference_networkx
           example_network "AAA" "DDD" 0%Z "time"). lia.
Defined.

(** Asked for no path at all, the search still returns one. *)
Example zero_paths_requested :
  exists r,
    find_k_shortest_paths (nx := reference_networkx)
      example_network "AAA" "DDD" 0 "time" = Ok [r]
    /\ path r = ["AAA"; "BBB"; "CCC"; "DDD"].
Proof. eexists. split; [vm_compute; reflexivity | reflexivity]. Qed.

Lemma bounded_below_witness :
  exists res,
    find_k_shortest_paths (nx := reference_networkx)
      example_network "AAA" "DDD" 5 "time" = Ok res
    /\ forall r, In r res ->
         path_weight example_network attr_time_cost
           ["AAA"; "BBB"; "CCC"; "DDD"]
         <= path_weight example_network attr_time_cost (path r).
Proof.
  assert (H : match find_k_shortest_paths (nx := reference_networkx)
                      example_network "AAA" "DDD" 5 "time" with
              | Ok _ => true
              | Raise _ => false
              end = true) by (vm_compute; reflexivity).
  destruct (find_k_shortest_paths (nx := reference_networkx)
              example_network "AAA" "DDD" 5 "time") as [res | e] eqn:E;
    [| discriminate H].
  exists res. split; [reflexivity |].
  exact (@k_shortest_paths_bounded_below reference_networkx
           example_network "AAA" "DDD" 5%Z "time" res
           ["AAA"; "BBB"; "CCC"; "DDD"] eq_refl E eq_refl).
Defined.

Example example_hub_connectivity :
  exists c,
    get_hub_connectivity example_network "AAA" = Ok (Some c)
    /\ num_destinations c = 2%nat /\ num_origins c = 0%nat
    /\ total_connections c = 2%nat /\ countries_served c = 2%nat
    /\ top_destinations c = ["BBB"; "EEE"].
Proof. eexists. split; [vm_compute; reflexivity |]. repeat split. Qed.

(** The handlers on lower-case input. *)
Example example_find_route :
  (exists resp,
      Api.find_route (nx := reference_networkx) string_upper
        example_airports example_network
        (Api.mkRouteRequest "aaa" "ddd" "time" None 5) = Api.Returned resp
      /\ path (Api.route resp) = ["AAA"; "BBB"; "CCC"; "DDD"]
      /\ map Api.pd_iata (Api.path_details resp)
         = ["AAA"; "BBB"; "CCC"; "DDD"])
  /\ Api.find_route (nx := reference_networkx) string_upper
       example_airports example_network
       (Api.mkRouteRequest "aaa" "AAA" "time" None 5)
     = Api.HTTPException 400 "Source and destination cannot be the same"
  /\ Api.find_route (nx := reference_networkx) string_upper
       example_airports example_network
       (Api.mkRouteRequest "aaa" "zzz" "time" None 5)
     = Api.HTTPException 404 "Destination airport ZZZ not found"
  /\ Api.find_route (nx := reference_networkx) string_upper
       example_airports example_network
       (Api.mkRouteRequest "aaa" "ddd" "time" (Some 1%Z) 5)
     = Api.HTTPException 404 "No route found from AAA to DDD".
Proof.
  split; [eexists; split; [vm_compute; reflexivity | split; reflexivity] |].
  repeat split; vm_compute; reflexivity.
Qed.

Example example_alternative_hubs_handler :
  Api.find_alternative_hubs string_upper example_airports example_network
    (Api.mkAlternativeHubsRequest "aaa" "ddd" "bbb" 5)
  = Api.Uncaught (AttributeError "_get_country_by_iata").
Proof. vm_compute. reflexivity. Qed.
